(** * Validation and routing of extracted insurance claims

    A shallow embedding of [InsuranceClaimsAgent.validate_fields] and
    [InsuranceClaimsAgent.route_claim] (src/agent.py) and of the statistics
    kept by [BatchProcessor.process_directory] (src/batch_process.py).

    The record handed to both functions is whatever [json.loads] produced
    from the model's answer, so it is modelled as a JSON value: Python's
    [None], [bool], number, [str], [list] and [dict].  Python exceptions are
    results of an error monad. *)

From Stdlib Require Import ZArith QArith Qabs String Ascii List Lia.
From stdpp Require Import base option gmap strings list fin_maps pretty.

Set Warnings "-register-all".
Local Open Scope string_scope.

(** ** Python values *)

(** A number is kept by its exact value: Python compares [int] and [float]
    by value, and a number is falsy exactly when its value is zero.  An
    [int] is any integer; a [float] is a finite double.  The two are told
    apart only where the amount is formatted, and there only by the value:
    see [py_format_money].  (The non-standard JSON literals NaN and Infinity
    are not numbers here.) *)
Inductive value : Type :=
  | VNone
  | VBool (b : bool)
  | VNum (q : Q)
  | VStr (s : string)
  | VList (l : list value)
  | VDict (d : gmap string value).

Inductive exn : Type :=
  | AttributeError
  | TypeError
  | ValueError
  | OverflowError
  | KeyError
  | OSError (msg : string)
  | Exception (msg : string).

Inductive result (A : Type) : Type :=
  | Ok (a : A)
  | Raise (e : exn).
Arguments Ok {A} a.
Arguments Raise {A} e.

#[global] Instance result_ret : MRet result := fun _ a => Ok a.
#[global] Instance result_bind : MBind result := fun _ _ f m =>
  match m with
  | Ok a => f a
  | Raise e => Raise e
  end.
#[global] Instance result_fmap : FMap result := fun _ _ f m =>
  match m with
  | Ok a => Ok (f a)
  | Raise e => Raise e
  end.

(** ** The built-ins the two functions use *)

(** [bool(v)]. *)
Definition truthy (v : value) : bool :=
  match v with
  | VNone => false
  | VBool b => b
  | VNum q => negb (Qnum q =? 0)%Z
  | VStr s => negb (String.eqb s "")
  | VList l => match l with [] => false | _ => true end
  | VDict d => negb (bool_decide (d = ∅))
  end.

(** [a or b]. *)
Definition py_or (a b : value) : value := if truthy a then a else b.

(** [d.get(k, dflt)] on a dictionary. *)
Definition dict_get (d : gmap string value) (k : string) (dflt : value) : value :=
  default dflt (d !! k).

(** [v.get(k, dflt)] on an arbitrary value: only a [dict] has the method. *)
Definition attr_get (v : value) (k : string) (dflt : value) : result value :=
  match v with
  | VDict d => Ok (dict_get d k dflt)
  | _ => Raise AttributeError
  end.

(** [needle in hay] on strings. *)
Fixpoint contains (needle hay : string) : bool :=
  String.prefix needle hay ||
  match hay with
  | EmptyString => false
  | String _ rest => contains needle rest
  end.

(** [sep.join(l)]. *)
Fixpoint join (sep : string) (l : list string) : string :=
  match l with
  | [] => ""
  | [x] => x
  | x :: rest => x ++ sep ++ join sep rest
  end.

Definition Qltb (x y : Q) : bool := (Qnum x * QDen y <? Qnum y * QDen x)%Z.

(** [v < 25000]: numbers are ordered by value, [bool] is an [int], anything
    else against an [int] is a [TypeError]. *)
Definition lt_int (v : value) (n : Z) : result bool :=
  match v with
  | VNum q => Ok (Qltb q (inject_Z n))
  | VBool b => Ok (Qltb (inject_Z (if b then 1 else 0)) (inject_Z n))
  | _ => Raise TypeError
  end.

(** *** [format(x, ',.2f')] *)

(** Nearest integer, ties to even. *)
Definition round_half_even (q : Q) : Z :=
  let n := Qnum q in
  let d := Z.pos (Qden q) in
  let f := (n / d)%Z in
  let r := (n mod d)%Z in
  if (2 * r <? d)%Z then f
  else if (d <? 2 * r)%Z then (f + 1)%Z
  else if Z.even f then f else (f + 1)%Z.

(** Insert a comma after every third character of a reversed digit list. *)
Fixpoint commas_rev (l : list ascii) : list ascii :=
  match l with
  | a :: b :: c :: rest =>
      match rest with
      | [] => l
      | _ => a :: b :: c :: "," %char :: commas_rev rest
      end
  | _ => l
  end.

Definition group_thousands (digits : string) : string :=
  string_of_list_ascii (rev (commas_rev (rev (list_ascii_of_string digits)))).

Definition two_digits (n : Z) : string :=
  if (n <? 10)%Z then "0" ++ pretty (Z.to_N n) else pretty (Z.to_N n).

(** [float(x)].  The format code [f] prints a [float]; an [int] is first
    converted to one.  The conversion rounds to the nearest double, ties to
    even, and raises [OverflowError] from 2^1024 - 2^970 on, the first
    magnitude that no longer rounds to the largest double 2^1024 - 2^971.
    A [float] is a double already: it is below the limit and the rounding
    leaves it as it is. *)
Definition double_limit : Z := (2 ^ 1024 - 2 ^ 970)%Z.

Definition overflows (q : Q) : bool :=
  Qle_bool (inject_Z double_limit) q || Qle_bool q (inject_Z (- double_limit)).

(** The largest [k] with [2^k <= n/d], for [0 < n]. *)
Definition floor_log2 (n : Z) (d : positive) : Z :=
  let k := (Z.log2 n - Z.log2 (Z.pos d))%Z in
  let below :=
    if (0 <=? k)%Z then (Z.pos d * 2 ^ k <=? n)%Z
    else (Z.pos d <=? n * 2 ^ (- k))%Z in
  if below then k else (k - 1)%Z.

(** The double nearest to [q]: 53 significant bits, ties to even, with the
    exponent of the last bit no smaller than -1074 (the subnormal range). *)
Definition nearest_double (q : Q) : Q :=
  if (Qnum q =? 0)%Z then 0%Q
  else
    let a := Qabs q in
    let e := Z.max (-1074) (floor_log2 (Qnum a) (Qden a) - 52) in
    let r := (inject_Z (round_half_even (a / 2 ^ e)) * 2 ^ e)%Q in
    if (Qnum q <? 0)%Z then (- r)%Q else r.

(** Fixed-point notation with two decimals and a thousands separator, of a
    number within the range of a double.  The digits are those of the
    nearest double's exact value, rounded half-to-even. *)
Definition format_money (q : Q) : string :=
  let cents := Z.abs (round_half_even (nearest_double q * inject_Z 100)) in
  (if (Qnum q <? 0)%Z then "-" else "") ++
  group_thousands (pretty (Z.to_N (cents / 100))) ++ "." ++
  two_digits (cents mod 100).

Definition py_format_money (v : value) : result string :=
  match v with
  | VNum q => if overflows q then Raise OverflowError else Ok (format_money q)
  | VBool b => Ok (format_money (inject_Z (if b then 1 else 0)))
  | VStr _ => Raise ValueError
  | _ => Raise TypeError
  end.

(** ** The agent *)

(** [self.mandatory_fields] and [self.fraud_keywords]. *)
Definition mandatory_fields : list string :=
  [ "policyNumber"; "policyholderName"; "incidentDate";
    "incidentLocation"; "description"; "claimantName";
    "assetType"; "claimType" ].

Definition fraud_keywords : list string :=
  [ "fraud"; "staged"; "inconsistent"; "suspicious"; "fake" ].

(** [if not <v>: missing.append(name)], where evaluating [<v>] may raise. *)
Definition check (v : result value) (name : string) (missing : list string)
  : result (list string) :=
  x ← v;
  mret (if truthy x then missing else (missing ++ [name])%list).

Definition validate_fields (extracted_data : gmap string value)
  : result (list string) :=
  let missing := [] in
  missing ← check (attr_get (dict_get extracted_data "policyInformation" (VDict ∅))
                     "policyNumber" VNone) "policyNumber" missing;
  missing ← check (attr_get (dict_get extracted_data "policyInformation" (VDict ∅))
                     "policyholderName" VNone) "policyholderName" missing;
  let incident := dict_get extracted_data "incidentInformation" (VDict ∅) in
  missing ← check (attr_get incident "date" VNone) "incidentDate" missing;
  missing ← check (location ← attr_get incident "location" (VDict ∅);
                   attr_get location "city" VNone) "incidentLocation" missing;
  missing ← check (attr_get incident "description" VNone) "description" missing;
  missing ← check (claimant ← attr_get (dict_get extracted_data "involvedParties" (VDict ∅))
                                "claimant" (VDict ∅);
                   attr_get claimant "name" VNone) "claimantName" missing;
  missing ← check (attr_get (dict_get extracted_data "assetDetails" (VDict ∅))
                     "assetType" VNone) "assetType" missing;
  missing ← check (attr_get (dict_get extracted_data "otherMandatoryFields" (VDict ∅))
                     "claimType" VNone) "claimType" missing;
  mret missing.

(** The dictionary [route_claim] returns. *)
Record decision : Type := Decision {
  recommendedRoute : string;
  reasoning : string;
  missingFields : list string;
  fraudIndicators : list string;
  estimatedDamage : value
}.

Section Agent.

(** [str.lower].  Python lower-cases by the Unicode tables; nothing below
    depends on them, so the function is left open.  Strings are read as
    UTF-8, where searching for an ASCII keyword byte-wise or character-wise
    is the same. *)
Variable lower : string → string.

(** [v.lower()]: only a [str] has the method. *)
Definition py_lower (v : value) : result string :=
  match v with
  | VStr s => Ok (lower s)
  | _ => Raise AttributeError
  end.

(** The four values [route_claim] derives from the record, in the order it
    evaluates them. *)
Definition description_of (extracted_data : gmap string value) : result string :=
  v ← attr_get (dict_get extracted_data "incidentInformation" (VDict ∅))
        "description" (VStr "");
  py_lower v.

Definition claim_type_of (extracted_data : gmap string value) : result string :=
  v ← attr_get (dict_get extracted_data "otherMandatoryFields" (VDict ∅))
        "claimType" (VStr "");
  py_lower v.

Definition estimated_damage_of (extracted_data : gmap string value) : result value :=
  attr_get (dict_get extracted_data "assetDetails" (VDict ∅)) "estimatedDamage" VNone.

Definition initial_estimate_of (extracted_data : gmap string value) : result value :=
  attr_get (dict_get extracted_data "otherMandatoryFields" (VDict ∅))
    "initialEstimate" VNone.

(** [estimated_damage or initial_estimate or 0]. *)
Definition resolve_damage (estimated_damage initial_estimate : value) : value :=
  py_or (py_or estimated_damage initial_estimate) (VNum 0).

(** [[word for word in self.fraud_keywords if word in description]]. *)
Definition scan_fraud (description : string) : list string :=
  List.filter (fun word => contains word description) fraud_keywords.

(** The damage amount [route_claim] settles on for a record. *)
Definition damage_amount_of (extracted_data : gmap string value) : result value :=
  estimated_damage ← estimated_damage_of extracted_data;
  initial_estimate ← initial_estimate_of extracted_data;
  Ok (resolve_damage estimated_damage initial_estimate).

Definition route_claim (extracted_data : gmap string value)
    (missing_fields : list string) : result decision :=
  description ← description_of extracted_data;
  claim_type ← claim_type_of extracted_data;
  estimated_damage ← estimated_damage_of extracted_data;
  initial_estimate ← initial_estimate_of extracted_data;
  let damage_amount := resolve_damage estimated_damage initial_estimate in
  let fraud_indicators := scan_fraud description in
  '(route, reasoning) ←
    match fraud_indicators with
    | _ :: _ =>
        Ok ("investigation",
            "Fraud indicators detected: " ++ join ", " fraud_indicators)
    | [] =>
    match missing_fields with
    | _ :: _ =>
        Ok ("manual-review",
            "Missing mandatory fields: " ++ join ", " missing_fields)
    | [] =>
    if contains "injury" claim_type then
      Ok ("specialist-queue",
          "Claim involves injury - requires specialist review")
    else
      low ← (if truthy damage_amount then lt_int damage_amount 25000
             else Ok false);
      if low : bool then
        amount ← py_format_money damage_amount;
        Ok ("fast-track",
            "Low damage amount ($" ++ amount ++ ") with all required fields present")
      else
        Ok ("manual-review",
            "Standard review required - damage exceeds fast-track threshold or estimate unavailable")
    end end;
  Ok {| recommendedRoute := route;
        reasoning := reasoning;
        missingFields := missing_fields;
        fraudIndicators := fraud_indicators;
        estimatedDamage := damage_amount |}.

End Agent.

(** Lower-casing of ASCII letters; it agrees with [str.lower] on ASCII text
    and is used to run the functions on concrete records. *)
Definition ascii_lower_char (c : ascii) : ascii :=
  let n := N_of_ascii c in
  if ((65 <=? n) && (n <=? 90))%N then ascii_of_N (n + 32) else c.

Fixpoint ascii_lower (s : string) : string :=
  match s with
  | EmptyString => EmptyString
  | String c rest => String (ascii_lower_char c) (ascii_lower rest)
  end.

(** ** Concrete records *)

Definition dict (l : list (string * value)) : value := VDict (list_to_map l).

(** The fixture of test/test_agent.py. *)
Definition sample_extracted_data : gmap string value :=
  list_to_map
    [ ("policyInformation",
        dict [ ("policyNumber", VStr "AUTO-12345");
               ("policyholderName", VStr "John Doe");
               ("effectiveDates", VStr "01/01/2025 - 01/01/2026") ]);
      ("incidentInformation",
        dict [ ("date", VStr "01/10/2025");
               ("time", VStr "2:30 PM");
               ("location",
                 dict [ ("street", VStr "123 Main St");
                        ("city", VStr "Los Angeles");
                        ("state", VStr "CA");
                        ("zip", VStr "90001") ]);
               ("description", VStr "Rear-end collision at intersection") ]);
      ("involvedParties",
        dict [ ("claimant",
                 dict [ ("name", VStr "John Doe");
                        ("phone", VStr "555-1234");
                        ("email", VStr "john@example.com") ]);
               ("thirdParties", VList []) ]);
      ("assetDetails",
        dict [ ("assetType", VStr "vehicle");
               ("assetId", VStr "1HGCM82633A123456");
               ("vehicleInfo",
                 dict [ ("year", VStr "2023");
                        ("make", VStr "Honda");
                        ("model", VStr "Accord") ]);
               ("estimatedDamage", VNum 15000) ]);
      ("otherMandatoryFields",
        dict [ ("claimType", VStr "auto");
               ("attachments", VStr "photos.zip");
               ("initialEstimate", VNum 15000) ]) ].

(** [data[section][key] = v] on a copy of the record. *)
Definition set_field (section key : string) (v : value)
    (data : gmap string value) : gmap string value :=
  match data !! section with
  | Some (VDict d) => <[section := VDict (<[key := v]> d)]> data
  | _ => data
  end.

(** ** The record schema, in the words of the data model *)

(** The value found by following [path] through nested mappings; absent as
    soon as a parent is absent or is not a mapping. *)
Fixpoint lookup_path (path : list string) (v : value) : option value :=
  match path with
  | [] => Some v
  | k :: rest =>
      match v with
      | VDict m => m !! k ≫= lookup_path rest
      | _ => None
      end
  end.

(** Where each mandatory field lives in the record. *)
Definition source_path (field : string) : list string :=
  if String.eqb field "policyNumber" then ["policyInformation"; "policyNumber"]
  else if String.eqb field "policyholderName" then ["policyInformation"; "policyholderName"]
  else if String.eqb field "incidentDate" then ["incidentInformation"; "date"]
  else if String.eqb field "incidentLocation" then ["incidentInformation"; "location"; "city"]
  else if String.eqb field "description" then ["incidentInformation"; "description"]
  else if String.eqb field "claimantName" then ["involvedParties"; "claimant"; "name"]
  else if String.eqb field "assetType" then ["assetDetails"; "assetType"]
  else if String.eqb field "claimType" then ["otherMandatoryFields"; "claimType"]
  else [].

Definition source_value (d : gmap string value) (field : string) : option value :=
  lookup_path (source_path field) (VDict d).

(** The text a record holds under a key of a section: the string that is
    there, and the empty string when the key, or the whole section, is not
    there.  A section that is not a mapping, or a value that is not a
    string, is no text. *)
Definition field_text (d : gmap string value) (section key : string)
  : option string :=
  match d !! section with
  | None => Some ""
  | Some (VDict m) =>
      match m !! key with
      | None => Some ""
      | Some (VStr s) => Some s
      | Some _ => None
      end
  | Some _ => None
  end.

Definition is_str (v : value) : bool := match v with VStr _ => true | _ => false end.
Definition is_num (v : value) : bool := match v with VNum _ => true | _ => false end.
Definition is_list (v : value) : bool := match v with VList _ => true | _ => false end.

(** A number within the range of a [float]: every [float], and every [int]
    that [float] accepts. *)
Definition float_sized (v : value) : bool :=
  match v with VNum q => negb (overflows q) | _ => false end.

Definition mapping (fields_ok : gmap string value → bool) (v : value) : bool :=
  match v with VDict m => fields_ok m | _ => false end.

(** A field may always be absent: missing or null. *)
Definition absent_or (p : value → bool) (o : option value) : bool :=
  match o with
  | None | Some VNone => true
  | Some v => p v
  end.

(** A StructuredClaimRecord: every field of the schema that is there has
    the type the schema gives it. *)
Definition well_formed (d : gmap string value) : bool :=
  absent_or (mapping (fun m =>
      absent_or is_str (m !! "policyNumber") &&
      absent_or is_str (m !! "policyholderName") &&
      absent_or is_str (m !! "effectiveDates"))) (d !! "policyInformation") &&
  absent_or (mapping (fun m =>
      absent_or is_str (m !! "date") &&
      absent_or is_str (m !! "time") &&
      absent_or (mapping (fun l =>
          absent_or is_str (l !! "street") &&
          absent_or is_str (l !! "city") &&
          absent_or is_str (l !! "state") &&
          absent_or is_str (l !! "zip"))) (m !! "location") &&
      absent_or is_str (m !! "description"))) (d !! "incidentInformation") &&
  absent_or (mapping (fun m =>
      absent_or (mapping (fun c =>
          absent_or is_str (c !! "name") &&
          absent_or is_str (c !! "phone") &&
          absent_or is_str (c !! "email"))) (m !! "claimant") &&
      absent_or is_list (m !! "thirdParties"))) (d !! "involvedParties") &&
  absent_or (mapping (fun m =>
      absent_or is_str (m !! "assetType") &&
      absent_or is_str (m !! "assetId") &&
      absent_or (mapping (fun v =>
          absent_or is_str (v !! "year") &&
          absent_or is_str (v !! "make") &&
          absent_or is_str (v !! "model"))) (m !! "vehicleInfo") &&
      absent_or is_num (m !! "estimatedDamage"))) (d !! "assetDetails") &&
  absent_or (mapping (fun m =>
      absent_or is_str (m !! "claimType") &&
      absent_or is_str (m !! "attachments") &&
      absent_or is_num (m !! "initialEstimate"))) (d !! "otherMandatoryFields").

(** The mappings the two functions reach into. *)
Definition parent_paths : list (list string) :=
  [ ["policyInformation"]; ["incidentInformation"];
    ["incidentInformation"; "location"]; ["involvedParties"];
    ["involvedParties"; "claimant"]; ["assetDetails"];
    ["otherMandatoryFields"] ].

Definition mapping_or_missing (o : option value) : bool :=
  match o with
  | None | Some (VDict _) => true
  | _ => false
  end.

(** Every one of them is a mapping or is not there at all (none is null). *)
Definition mappings_present (d : gmap string value) : bool :=
  forallb (fun p => mapping_or_missing (lookup_path p (VDict d))) parent_paths.

(** Every mandatory field holds a string, null, or is not there. *)
Definition sources_textual (d : gmap string value) : bool :=
  forallb (fun f => absent_or is_str (source_value d f)) mandatory_fields.

Definition is_space (c : ascii) : bool :=
  let n := N_of_ascii c in ((n =? 32) || ((9 <=? n) && (n <=? 13)))%N.

(** Empty, or nothing but white space. *)
Fixpoint blank (s : string) : bool :=
  match s with
  | EmptyString => true
  | String c rest => is_space c && blank rest
  end.

(** "Missing" as the specification words it: absent, null, or an empty or
    white-space string. *)
Definition spec_missing (d : gmap string value) (field : string) : bool :=
  match source_value d field with
  | None | Some VNone => true
  | Some (VStr s) => blank s
  | Some _ => false
  end.

(** "Missing" as [validate_fields] decides it on textual fields: absent,
    null, or the empty string. *)
Definition source_missing (d : gmap string value) (field : string) : bool :=
  match source_value d field with
  | None | Some VNone => true
  | Some (VStr s) => String.eqb s ""
  | Some _ => false
  end.

(** ** The batch processor *)

(** What reading a file and asking the model for its fields came to: both
    steps are outside this development, and both report a failure by
    raising [Exception] with a message. *)
Inductive extraction : Type :=
  | Extracted (fields : gmap string value)
  | ExtractionFailed (msg : string).

(** A file of the input directory, with what the world outside does for
    it: the extraction, and whether writing its result fails. *)
Record document : Type := Document {
  file_name : string;
  extracted : extraction;
  save_failure : option string
}.

(** The dictionary [process_claim] returns (without its time stamp). *)
Record claim_result : Type := ClaimResult {
  documentName : string;
  extractedFields : gmap string value;
  result_missingFields : list string;
  result_recommendedRoute : string;
  result_reasoning : string;
  result_fraudIndicators : list string;
  result_estimatedDamage : value
}.

Record entry : Type := Entry {
  filename : string;
  route : option string;
  status : string;
  error : option exn
}.

Record stats : Type := Stats {
  total : nat;
  successful : nat;
  failed : nat;
  routes : gmap string nat
}.

Record batch_processor : Type := BatchProcessor {
  results : list entry;
  batch_stats : stats
}.

Definition route_names : list string :=
  [ "fast-track"; "manual-review"; "investigation"; "specialist-queue" ].

(** [BatchProcessor.__init__]. *)
Definition init_routes : gmap string nat :=
  <["fast-track" := 0]> (<["manual-review" := 0]>
    (<["investigation" := 0]> (<["specialist-queue" := 0]> ∅))).

Definition init : batch_processor :=
  {| results := [];
     batch_stats := {| total := 0; successful := 0; failed := 0;
                       routes := init_routes |} |}.

(** [routes[key] += 1]: reading a key that is not there is a [KeyError]. *)
Definition routes_incr (r : gmap string nat) (key : string)
  : result (gmap string nat) :=
  match r !! key with
  | Some n => Ok (<[key := n + 1]> r)
  | None => Raise KeyError
  end.

Section Batch.

Variable lower : string → string.

Definition process_claim (doc : document) : result claim_result :=
  match extracted doc with
  | ExtractionFailed msg => Raise (Exception msg)
  | Extracted extracted_fields =>
      missing_fields ← validate_fields extracted_fields;
      routing_info ← route_claim lower extracted_fields missing_fields;
      Ok {| documentName := file_name doc;
            extractedFields := extracted_fields;
            result_missingFields := missing_fields;
            result_recommendedRoute := recommendedRoute routing_info;
            result_reasoning := reasoning routing_info;
            result_fraudIndicators := fraudIndicators routing_info;
            result_estimatedDamage := estimatedDamage routing_info |}
  end.

(** [save_result], for what the batch sees of it. *)
Definition save_result (doc : document) : result unit :=
  match save_failure doc with
  | Some msg => Raise (OSError msg)
  | None => Ok ()
  end.

(** The [except Exception] branch, entered with the statistics as the
    [try] block left them. *)
Definition record_failure (doc : document) (e : exn) (res : list entry)
    (st : stats) : batch_processor :=
  {| results := res ++ [ {| filename := file_name doc; route := None;
                            status := "failed"; error := Some e |} ];
     batch_stats := {| total := total st + 1; successful := successful st;
                       failed := failed st + 1; routes := routes st |} |}.

(** One turn of the loop of [process_directory]. *)
Definition process_file (b : batch_processor) (doc : document) : batch_processor :=
  let st := batch_stats b in
  match process_claim doc with
  | Raise e => record_failure doc e (results b) st
  | Ok res =>
      match save_result doc with
      | Raise e => record_failure doc e (results b) st
      | Ok _ =>
          let st := {| total := total st + 1; successful := successful st + 1;
                       failed := failed st; routes := routes st |} in
          match routes_incr (routes st) (result_recommendedRoute res) with
          | Raise e => record_failure doc e (results b) st
          | Ok routes' =>
              {| results := results b ++
                   [ {| filename := file_name doc;
                        route := Some (result_recommendedRoute res);
                        status := "success"; error := None |} ];
                 batch_stats := {| total := total st; successful := successful st;
                                   failed := failed st; routes := routes' |} |}
          end
      end
  end.

Definition process_directory (all_files : list document) : batch_processor :=
  fold_left process_file all_files init.

End Batch.

(** A field is reported exactly when the value found for it is falsy. *)
Definition falsy_source (d : gmap string value) (field : string) : bool :=
  negb (truthy (default VNone (source_value d field))).

(** Every route name has a counter, and no file was ever recorded as failed
    for a missing counter. *)
Definition tally_complete (b : batch_processor) : Prop :=
  (∀ k, In k route_names → is_Some (routes (batch_stats b) !! k)) ∧
  Forall (λ en, error en ≠ Some KeyError) (results b).

(** The amount [route_claim] settles on, told from what the two paths hold:
    the estimated damage unless it is absent, null or zero, then the initial
    estimate unless it is absent, null or zero, then 0. *)
Definition nonzero_amount (o : option value) : option Q :=
  match o with
  | Some (VNum q) => if (Qnum q =? 0)%Z then None else Some q
  | _ => None
  end.

Definition settled_damage (estimated initial : option value) : value :=
  match nonzero_amount estimated with
  | Some q => VNum q
  | None =>
      match nonzero_amount initial with
      | Some q => VNum q
      | None => VNum 0
      end
  end.

(** ** Records the functions are run on *)

(** The description could not be extracted: the model answers null. *)
Definition null_description : gmap string value :=
  set_field "incidentInformation" "description" VNone sample_extracted_data.

(** A whole section is null. *)
Definition null_section : gmap string value :=
  <["policyInformation" := VNone]> sample_extracted_data.

(** No damage at all: an estimate of zero and no initial estimate. *)
Definition zero_damage : gmap string value :=
  set_field "otherMandatoryFields" "initialEstimate" VNone
    (set_field "assetDetails" "estimatedDamage" (VNum 0) sample_extracted_data).

(** [test_edge_case_zero_damage]: the estimate is zero, the initial estimate
    still 15000. *)
Definition zero_estimate : gmap string value :=
  set_field "assetDetails" "estimatedDamage" (VNum 0) sample_extracted_data.

(** A policy number of three spaces. *)
Definition blank_policy_number : gmap string value :=
  set_field "policyInformation" "policyNumber" (VStr "   ") sample_extracted_data.

(** [test_route_investigation_fraud], with a claim type the model could not
    find. *)
Definition fraud_without_claim_type : gmap string value :=
  set_field "otherMandatoryFields" "claimType" VNone
    (set_field "incidentInformation" "description"
       (VStr "This seems like a staged accident with inconsistent details")
       sample_extracted_data).


Definition with_damage (q : Q) : gmap string value :=
  set_field "assetDetails" "estimatedDamage" (VNum q) sample_extracted_data.

(** The injury scenario: claim type "injury", damage 22000. *)
Definition injury_claim : gmap string value :=
  set_field "otherMandatoryFields" "claimType" (VStr "injury") (with_damage 22000).

(** An injury claim whose claim type is not spelt in lower case. *)
Definition bodily_injury_claim : gmap string value :=
  set_field "otherMandatoryFields" "claimType" (VStr "Bodily INJURY")
    (with_damage 22000).

(** An integer amount below every double: -10^400. *)
Definition huge_negative : Q := inject_Z (- 10 ^ 400).

(** [test_edge_case_no_damage_estimate]. *)
Definition no_estimate : gmap string value :=
  set_field "otherMandatoryFields" "initialEstimate" VNone
    (set_field "assetDetails" "estimatedDamage" VNone sample_extracted_data).

(** A batch of three files: one routed, one the model failed on, one whose
    description is null. *)
Definition sample_batch : list document :=
  [ {| file_name := "fnol_fast_track_01.txt";
       extracted := Extracted sample_extracted_data;
       save_failure := None |};
    {| file_name := "unreadable.pdf";
       extracted := ExtractionFailed "Extraction failed";
       save_failure := None |};
    {| file_name := "fnol_missing_fields_04.txt";
       extracted := Extracted null_description;
       save_failure := None |} ].

(** ** When the functions return *)

(** A description or claim type [route_claim] can lower-case: a string, or
    no key at all (the default is a string). *)
Definition str_or_no_key (o : option value) : bool :=
  match o with
  | None | Some (VStr _) => true
  | _ => false
  end.

(** The three sections [route_claim] reads are mappings or not there, and
    the two texts it lower-cases are strings or not there. *)
Definition routable (d : gmap string value) : bool :=
  mapping_or_missing (lookup_path ["incidentInformation"] (VDict d)) &&
  mapping_or_missing (lookup_path ["otherMandatoryFields"] (VDict d)) &&
  mapping_or_missing (lookup_path ["assetDetails"] (VDict d)) &&
  str_or_no_key (lookup_path ["incidentInformation"; "description"] (VDict d)) &&
  str_or_no_key (lookup_path ["otherMandatoryFields"; "claimType"] (VDict d)).

(** An amount [damage_amount < 25000] accepts: a number or a boolean. *)
Definition comparable (v : value) : bool :=
  match v with
  | VNum _ | VBool _ => true
  | _ => false
  end.

(** ** What becomes of a file in a batch *)

(** The route a file is tallied under; none when it is recorded as failed. *)
Definition tallied_route (lower : string → string) (doc : document)
  : option string :=
  match process_claim lower doc with
  | Ok res =>
      match save_result doc with
      | Ok _ => Some (result_recommendedRoute res)
      | Raise _ => None
      end
  | Raise _ => None
  end.

(** How many files of a batch are tallied, and how many under one route. *)
Definition tallied (lower : string → string) (files : list document) : nat :=
  length (filter (λ doc, is_Some (tallied_route lower doc)) files).

Definition routed_to (lower : string → string) (k : string)
    (files : list document) : nat :=
  length (filter (λ doc, tallied_route lower doc = Some k) files).

(** The state of the batch processor told from the files it has seen. *)
Definition batch_after (lower : string → string) (files : list document)
    (b : batch_processor) : Prop :=
  total (batch_stats b) = length files ∧
  successful (batch_stats b) = tallied lower files ∧
  successful (batch_stats b) + failed (batch_stats b) = length files ∧
  (∀ k, routes (batch_stats b) !! k =
          if decide (k ∈ route_names) then Some (routed_to lower k files)
          else None) ∧
  filename <$> results b = file_name <$> files ∧
  route <$> results b = tallied_route lower <$> files.

(** [max(routes.values()) if any(routes.values()) else 1], the scale of
    [_print_route_chart]. *)
Definition max_count (r : gmap string nat) : nat :=
  let values := (map_to_list r).*2 in
  if existsb (λ v, negb (Nat.eqb v 0)) values then foldr Nat.max 0 values else 1.

(** The sparse record of [test_fraud_keywords_detection]. *)
Definition sparse_record : gmap string value :=
  list_to_map
    [ ("incidentInformation", dict [ ("description", VStr "Normal accident description") ]);
      ("otherMandatoryFields", dict [ ("claimType", VStr "auto") ]);
      ("assetDetails", dict [ ("estimatedDamage", VNum 10000) ]) ].

(** The files of [sample_batch] in the opposite order. *)
Definition sample_batch_reversed : list document := rev sample_batch.

(** ** Recovering the JSON text from the model's answer *)

(** [s[n:]]. *)
Fixpoint drop_chars (n : nat) (s : string) : string :=
  match n, s with
  | 0, _ => s
  | S n', String _ rest => drop_chars n' rest
  | S _, EmptyString => EmptyString
  end.

(** Python's white space on the first 128 characters ([str.isspace]). *)
Definition ascii_isspace (c : ascii) : bool :=
  let n := N_of_ascii c in
  ((n =? 32) || ((9 <=? n) && (n <=? 13)) || ((28 <=? n) && (n <=? 31)))%N.

Section ExtractJson.

(** The class [\s] of the regular expressions.  A string is read here as
    the sequence of its characters; which of them are white space is left
    open. *)
Variable is_space : ascii → bool.

(** What a greedy [\s*] leaves of a string. *)
Fixpoint skip_spaces (s : string) : string :=
  match s with
  | EmptyString => EmptyString
  | String c rest => if is_space c then skip_spaces rest else s
  end.

(** [re.sub(fence + r'\s*', '', s)] for a literal, non-empty [fence]: at
    the leftmost occurrence the fence and the white space after it are
    dropped and the search resumes behind them.  Every step consumes a
    character, so the length of the text is fuel enough. *)
Fixpoint re_sub_fuel (fuel : nat) (fence s : string) : string :=
  match fuel with
  | 0 => s
  | S fuel' =>
      match s with
      | EmptyString => EmptyString
      | String c rest =>
          if String.prefix fence s
          then re_sub_fuel fuel' fence (skip_spaces (drop_chars (String.length fence) s))
          else String c (re_sub_fuel fuel' fence rest)
      end
  end.

Definition re_sub (fence s : string) : string :=
  re_sub_fuel (String.length s) fence s.

(** The part of the text from its first opening brace on. *)
Fixpoint from_first_open (s : string) : option string :=
  match s with
  | EmptyString => None
  | String c rest =>
      if Ascii.eqb c "{" then Some s else from_first_open rest
  end.

(** The part of the text up to its last closing brace. *)
Fixpoint upto_last_close (s : string) : option string :=
  match s with
  | EmptyString => None
  | String c rest =>
      match upto_last_close rest with
      | Some m => Some (String c m)
      | None => if Ascii.eqb c "}" then Some (String c EmptyString) else None
      end
  end.

(** [re.search(r'\{.*\}', text, re.DOTALL)]: the leftmost match starts at
    the first opening brace that has a closing brace behind it, which is
    the first opening brace or none; being greedy, it ends at the last
    closing brace. *)
Definition re_search_braces (text : string) : option string :=
  from_first_open text ≫= upto_last_close.

Definition _extract_json (text : string) : string :=
  let text := re_sub "```json" text in
  let text := re_sub "```" text in
  match re_search_braces text with
  | Some m => m
  | None => text
  end.

End ExtractJson.

(** A double quote and a line feed, to write answers down. *)
Definition dquote : string := String "034" EmptyString.
Definition newline : string := String "010" EmptyString.

(** The two answers of [test_extract_json_from_markdown]. *)
Definition wordy_answer : string :=
  "Here is the record: {" ++ dquote ++ "a" ++ dquote ++ ": {}} - let me know.".
Definition plain_json : string :=
  "{" ++ dquote ++ "test" ++ dquote ++ ": " ++ dquote ++ "value" ++ dquote ++ "}".
Definition markdown_json : string :=
  "```json" ++ newline ++ plain_json ++ newline ++ "```".

(** * Properties *)

(** ** The error monad and the built-ins *)

Lemma bind_Ok {A B} (m : result A) (f : A → result B) (b : B) :
  m ≫= f = Ok b → ∃ a, m = Ok a ∧ f a = Ok b.
Proof. destruct m as [a|e]; simpl; [eauto | discriminate]. Qed.

Lemma bind_Raise {A B} (m : result A) (f : A → result B) (e : exn) :
  m ≫= f = Raise e → m = Raise e ∨ ∃ a, m = Ok a ∧ f a = Raise e.
Proof. destruct m as [a|e']; simpl; [eauto | intros [= ->]; auto]. Qed.

Lemma attr_get_Ok (v : value) (k : string) (dflt x : value) :
  attr_get v k dflt = Ok x → ∃ m, v = VDict m ∧ x = dict_get m k dflt.
Proof. destruct v; simpl; try discriminate. intros [= <-]. eauto. Qed.

Lemma attr_get_Raise (v : value) (k : string) (dflt : value) (e : exn) :
  attr_get v k dflt = Raise e → e = AttributeError.
Proof. destruct v; simpl; congruence. Qed.

Lemma lt_int_Raise (v : value) (n : Z) (e : exn) :
  lt_int v n = Raise e → e = TypeError.
Proof. destruct v; simpl; congruence. Qed.

(** A value that can be compared with a number can be formatted, unless it
    is too large for a [float]. *)
Lemma lt_int_format (v : value) (n : Z) (b : bool) (e : exn) :
  lt_int v n = Ok b → py_format_money v = Raise e → e = OverflowError.
Proof.
  destruct v as [| |q| | |]; simpl; try discriminate.
  destruct (overflows q); congruence.
Qed.

Lemma filter_sublist {A} (f : A → bool) (l : list A) :
  List.filter f l `sublist_of` l.
Proof.
  induction l as [|a l IH]; simpl.
  - constructor.
  - destruct (f a); [by apply sublist_skip | by apply sublist_cons].
Qed.

Lemma Qltb_lt (x y : Q) : Qltb x y = true ↔ (x < y)%Q.
Proof. unfold Qltb, Qlt. apply Z.ltb_lt. Qed.

Lemma Qltb_ge (x y : Q) : Qltb x y = false ↔ (y <= x)%Q.
Proof. unfold Qltb, Qle. apply Z.ltb_ge. Qed.

Lemma truthy_num (q : Q) : truthy (VNum q) = true ↔ ¬ (q == 0)%Q.
Proof.
  unfold Qeq; simpl. rewrite negb_true_iff, Z.eqb_neq. lia.
Qed.

Lemma falsy_num (q : Q) : truthy (VNum q) = false ↔ (q == 0)%Q.
Proof.
  unfold Qeq; simpl. rewrite negb_false_iff, Z.eqb_eq. lia.
Qed.

(** The amounts [float] accepts lie strictly between the two limits. *)
Lemma overflows_false (q : Q) :
  overflows q = false ↔
  (inject_Z (- double_limit) < q ∧ q < inject_Z double_limit)%Q.
Proof.
  unfold overflows. rewrite orb_false_iff.
  rewrite <- !not_true_iff_false, !Qle_bool_iff.
  split; intros [H1 H2].
  - split; apply Qnot_le_lt; assumption.
  - split; apply Qlt_not_le; assumption.
Qed.


Lemma double_limit_above : (25000 < inject_Z double_limit)%Q.
Proof. reflexivity. Qed.

(** Below the threshold only the lower limit matters. *)
Lemma overflows_low (q : Q) :
  (q < 25000)%Q → (inject_Z (- double_limit) < q)%Q → overflows q = false.
Proof.
  intros Hlt Hlow. apply overflows_false. split; [assumption |].
  eapply Qlt_trans; [exact Hlt | exact double_limit_above].
Qed.

(** ** How [route_claim] comes to its decision *)

Section Routing.

Variable lower : string → string.

Variables (d : gmap string value) (desc ct : string) (e i : value).
Hypothesis Hdesc : description_of lower d = Ok desc.
Hypothesis Hct : claim_type_of lower d = Ok ct.
Hypothesis He : estimated_damage_of d = Ok e.
Hypothesis Hi : initial_estimate_of d = Ok i.

Lemma damage_amount_of_resolved : damage_amount_of d = Ok (resolve_damage e i).
Proof. unfold damage_amount_of. rewrite He, Hi. reflexivity. Qed.

Lemma route_fraud (m : list string) :
  scan_fraud desc ≠ [] →
  route_claim lower d m =
    Ok {| recommendedRoute := "investigation";
          reasoning := "Fraud indicators detected: " ++ join ", " (scan_fraud desc);
          missingFields := m;
          fraudIndicators := scan_fraud desc;
          estimatedDamage := resolve_damage e i |}.
Proof.
  intros Hne. unfold route_claim. rewrite Hdesc, Hct, He, Hi. simpl.
  destruct (scan_fraud desc); [congruence | reflexivity].
Qed.

Lemma route_missing (m : list string) :
  scan_fraud desc = [] → m ≠ [] →
  route_claim lower d m =
    Ok {| recommendedRoute := "manual-review";
          reasoning := "Missing mandatory fields: " ++ join ", " m;
          missingFields := m;
          fraudIndicators := [];
          estimatedDamage := resolve_damage e i |}.
Proof.
  intros Hs Hne. unfold route_claim. rewrite Hdesc, Hct, He, Hi. simpl.
  rewrite Hs. destruct m; [congruence | reflexivity].
Qed.

Lemma route_injury :
  scan_fraud desc = [] → contains "injury" ct = true →
  route_claim lower d [] =
    Ok {| recommendedRoute := "specialist-queue";
          reasoning := "Claim involves injury - requires specialist review";
          missingFields := [];
          fraudIndicators := [];
          estimatedDamage := resolve_damage e i |}.
Proof.
  intros Hs Hinj. unfold route_claim. rewrite Hdesc, Hct, He, Hi. simpl.
  rewrite Hs, Hinj. reflexivity.
Qed.

Lemma route_low (q : Q) :
  scan_fraud desc = [] → contains "injury" ct = false →
  resolve_damage e i = VNum q → ¬ (q == 0)%Q → (q < 25000)%Q →
  overflows q = false →
  route_claim lower d [] =
    Ok {| recommendedRoute := "fast-track";
          reasoning := "Low damage amount ($" ++ format_money q
                         ++ ") with all required fields present";
          missingFields := [];
          fraudIndicators := [];
          estimatedDamage := VNum q |}.
Proof.
  intros Hs Hinj Hq Hnz Hlt Hfit. unfold route_claim. rewrite Hdesc, Hct, He, Hi. simpl.
  rewrite Hs, Hinj, Hq.
  apply truthy_num in Hnz. rewrite Hnz. simpl.
  apply Qltb_lt in Hlt. change (inject_Z 25000) with 25000%Q.
  rewrite Hlt. simpl. rewrite Hfit. reflexivity.
Qed.


Lemma route_standard (q : Q) :
  scan_fraud desc = [] → contains "injury" ct = false →
  resolve_damage e i = VNum q → (q == 0 ∨ 25000 <= q)%Q →
  route_claim lower d [] =
    Ok {| recommendedRoute := "manual-review";
          reasoning := "Standard review required - damage exceeds fast-track threshold or estimate unavailable";
          missingFields := [];
          fraudIndicators := [];
          estimatedDamage := VNum q |}.
Proof.
  intros Hs Hinj Hq Hcase. unfold route_claim. rewrite Hdesc, Hct, He, Hi. simpl.
  rewrite Hs, Hinj, Hq.
  destruct (truthy (VNum q)) eqn:Ht; simpl; [| reflexivity].
  destruct Hcase as [Hz | Hge].
  - apply falsy_num in Hz. congruence.
  - apply Qltb_ge in Hge. change (inject_Z 25000) with 25000%Q.
    rewrite Hge. reflexivity.
Qed.

End Routing.

(** ** What a returned decision holds, and what a failure can be *)

Section Outcomes.

Variable lower : string → string.

Lemma py_lower_Raise (v : value) (e : exn) :
  py_lower lower v = Raise e → e = AttributeError.
Proof. destruct v; simpl; congruence. Qed.

Lemma description_of_Raise (d : gmap string value) (e : exn) :
  description_of lower d = Raise e → e = AttributeError.
Proof.
  unfold description_of. intros H.
  apply bind_Raise in H as [H | (v & _ & H)];
    eauto using attr_get_Raise, py_lower_Raise.
Qed.

Lemma claim_type_of_Raise (d : gmap string value) (e : exn) :
  claim_type_of lower d = Raise e → e = AttributeError.
Proof.
  unfold claim_type_of. intros H.
  apply bind_Raise in H as [H | (v & _ & H)];
    eauto using attr_get_Raise, py_lower_Raise.
Qed.

(** A decision that is returned was built from the four derived values. *)
Lemma route_claim_Ok (d : gmap string value) (m : list string) (r : decision) :
  route_claim lower d m = Ok r →
  ∃ desc ct e i,
    description_of lower d = Ok desc ∧ claim_type_of lower d = Ok ct ∧
    estimated_damage_of d = Ok e ∧ initial_estimate_of d = Ok i ∧
    missingFields r = m ∧ fraudIndicators r = scan_fraud desc ∧
    estimatedDamage r = resolve_damage e i ∧
    In (recommendedRoute r) route_names.
Proof.
  unfold route_claim. intros H.
  apply bind_Ok in H as (desc & Hdesc & H).
  apply bind_Ok in H as (ct & Hct & H).
  apply bind_Ok in H as (e & He & H).
  apply bind_Ok in H as (i & Hi & H).
  apply bind_Ok in H as ([rt rs] & Hbranch & H).
  injection H as <-. exists desc, ct, e, i. simpl.
  repeat split; try assumption.
  destruct (scan_fraud desc); [| injection Hbranch as <- _; tauto].
  destruct m; [| injection Hbranch as <- _; tauto].
  destruct (contains "injury" ct); [injection Hbranch as <- _; tauto |].
  apply bind_Ok in Hbranch as ([] & _ & Hbranch).
  - apply bind_Ok in Hbranch as (amount & _ & Hbranch).
    injection Hbranch as <- _; tauto.
  - injection Hbranch as <- _; tauto.
Qed.

(** The only failures are a method looked up on a value that lacks it, an
    amount that cannot be compared with a number and an amount too large to
    be formatted. *)
Lemma route_claim_Raise (d : gmap string value) (m : list string) (x : exn) :
  route_claim lower d m = Raise x →
  x = AttributeError ∨ x = TypeError ∨ x = OverflowError.
Proof.
  unfold route_claim. intros H.
  apply bind_Raise in H as [H | (desc & _ & H)];
    [left; eauto using description_of_Raise |].
  apply bind_Raise in H as [H | (ct & _ & H)];
    [left; eauto using claim_type_of_Raise |].
  apply bind_Raise in H as [H | (e & _ & H)];
    [left; eauto using attr_get_Raise |].
  apply bind_Raise in H as [H | (i & _ & H)];
    [left; eauto using attr_get_Raise |].
  apply bind_Raise in H as [H | ([rt rs] & _ & H)]; [| discriminate].
  destruct (scan_fraud desc); [| discriminate].
  destruct m; [| discriminate].
  destruct (contains "injury" ct); [discriminate |].
  apply bind_Raise in H as [H | (low & Hlow & H)].
  - destruct (truthy (resolve_damage e i)); [| discriminate].
    right; left; eauto using lt_int_Raise.
  - destruct low; [| discriminate].
    destruct (truthy (resolve_damage e i)); [| discriminate].
    apply bind_Raise in H as [H | (amount & _ & H)]; [| discriminate].
    right; right; eauto using lt_int_format.
Qed.

End Outcomes.

(** ** [validate_fields] against the safe nested lookup *)

Lemma check_Ok (v : result value) (name : string) (missing missing' : list string) :
  check v name missing = Ok missing' →
  ∃ x, v = Ok x ∧ missing' = if truthy x then missing else (missing ++ [name])%list.
Proof.
  unfold check. intros H. apply bind_Ok in H as (x & Hx & H).
  injection H as <-. eauto.
Qed.

Lemma check_Raise (v : result value) (name : string) (missing : list string) (e : exn) :
  check v name missing = Raise e → v = Raise e.
Proof.
  unfold check. intros H. apply bind_Raise in H as [H | (x & _ & H)];
    [assumption | discriminate].
Qed.

(** Two levels deep: the method chain finds what the path finds. *)
Lemma get_in_section (d : gmap string value) (sec k : string) (dflt : value) :
  mapping_or_missing (lookup_path [sec] (VDict d)) = true →
  attr_get (dict_get d sec (VDict ∅)) k dflt =
    Ok (default dflt (lookup_path [sec; k] (VDict d))).
Proof.
  unfold dict_get. simpl. destruct (d !! sec) as [[]|]; simpl; try discriminate.
  - intros _. unfold dict_get. destruct (_ !! k); reflexivity.
  - intros _. unfold dict_get. rewrite lookup_empty. reflexivity.
Qed.

(** Three levels deep. *)
Lemma get_in_subsection (d : gmap string value) (sec sub k : string) :
  mapping_or_missing (lookup_path [sec] (VDict d)) = true →
  mapping_or_missing (lookup_path [sec; sub] (VDict d)) = true →
  attr_get (dict_get d sec (VDict ∅)) sub (VDict ∅)
    ≫= (λ inner, attr_get inner k VNone) =
    Ok (default VNone (lookup_path [sec; sub; k] (VDict d))).
Proof.
  unfold dict_get. simpl. destruct (d !! sec) as [[| | | | |m]|]; simpl; try discriminate.
  - intros _. unfold dict_get.
    destruct (m !! sub) as [[| | | | |m']|]; simpl; try discriminate.
    + intros _. unfold dict_get. destruct (_ !! k); reflexivity.
    + intros _. unfold dict_get. rewrite lookup_empty. reflexivity.
  - intros _ _. unfold dict_get. rewrite !lookup_empty. simpl.
    unfold dict_get. rewrite lookup_empty. reflexivity.
Qed.

Lemma validate_fields_falsy (d : gmap string value) :
  mappings_present d = true →
  validate_fields d = Ok (List.filter (falsy_source d) mandatory_fields).
Proof.
  unfold mappings_present, parent_paths. cbn [forallb].
  rewrite !andb_true_iff.
  intros (Hpol & Hinc & Hloc & Hpar & Hcla & Hast & Hoth & _).
  unfold validate_fields, check.
  rewrite (get_in_subsection d "incidentInformation" "location") by assumption.
  rewrite (get_in_subsection d "involvedParties" "claimant") by assumption.
  rewrite !(get_in_section d "policyInformation") by assumption.
  rewrite !(get_in_section d "incidentInformation") by assumption.
  rewrite (get_in_section d "assetDetails") by assumption.
  rewrite (get_in_section d "otherMandatoryFields") by assumption.
  unfold mandatory_fields, falsy_source, source_value. cbn [List.filter].
  change (source_path "policyNumber") with ["policyInformation"; "policyNumber"].
  change (source_path "policyholderName") with ["policyInformation"; "policyholderName"].
  change (source_path "incidentDate") with ["incidentInformation"; "date"].
  change (source_path "incidentLocation") with ["incidentInformation"; "location"; "city"].
  change (source_path "description") with ["incidentInformation"; "description"].
  change (source_path "claimantName") with ["involvedParties"; "claimant"; "name"].
  change (source_path "assetType") with ["assetDetails"; "assetType"].
  change (source_path "claimType") with ["otherMandatoryFields"; "claimType"].
  generalize (default VNone (lookup_path ["policyInformation"; "policyNumber"] (VDict d))).
  generalize (default VNone (lookup_path ["policyInformation"; "policyholderName"] (VDict d))).
  generalize (default VNone (lookup_path ["incidentInformation"; "date"] (VDict d))).
  generalize (default VNone (lookup_path ["incidentInformation"; "location"; "city"] (VDict d))).
  generalize (default VNone (lookup_path ["incidentInformation"; "description"] (VDict d))).
  generalize (default VNone (lookup_path ["involvedParties"; "claimant"; "name"] (VDict d))).
  generalize (default VNone (lookup_path ["assetDetails"; "assetType"] (VDict d))).
  generalize (default VNone (lookup_path ["otherMandatoryFields"; "claimType"] (VDict d))).
  intros x8 x7 x6 x5 x4 x3 x2 x1. cbn [mbind result_bind mret result_ret].
  destruct (truthy x1), (truthy x2), (truthy x3), (truthy x4),
    (truthy x5), (truthy x6), (truthy x7), (truthy x8); reflexivity.
Qed.

Lemma validate_fields_Raise (d : gmap string value) (e : exn) :
  validate_fields d = Raise e → e = AttributeError.
Proof.
  unfold validate_fields. intros H.
  repeat (apply bind_Raise in H as [H | (? & _ & H)];
          [apply check_Raise in H;
           try (apply bind_Raise in H as [H | (? & _ & H)]);
           eauto using attr_get_Raise |]).
  discriminate.
Qed.

(** When [validate_fields] returns at all, the sections [route_claim] reads
    the two amounts from are dictionaries. *)
Lemma validate_fields_Ok_amounts (d : gmap string value) (missing : list string) :
  validate_fields d = Ok missing →
  ∃ e i, estimated_damage_of d = Ok e ∧ initial_estimate_of d = Ok i.
Proof.
  unfold validate_fields. intros H.
  do 6 (apply bind_Ok in H as (? & _ & H)).
  apply bind_Ok in H as (? & Hast & H).
  apply bind_Ok in H as (? & Hoth & H).
  apply check_Ok in Hast as (? & Hast & _).
  apply check_Ok in Hoth as (? & Hoth & _).
  apply attr_get_Ok in Hast as (ma & Hma & _).
  apply attr_get_Ok in Hoth as (mo & Hmo & _).
  unfold estimated_damage_of, initial_estimate_of.
  rewrite Hma, Hmo. simpl. eauto.
Qed.

Lemma damage_amount_of_Ok (d : gmap string value) (v : value) :
  damage_amount_of d = Ok v →
  ∃ e i, estimated_damage_of d = Ok e ∧ initial_estimate_of d = Ok i ∧
         v = resolve_damage e i.
Proof.
  unfold damage_amount_of. intros H.
  apply bind_Ok in H as (e & He & H). apply bind_Ok in H as (i & Hi & H).
  injection H as <-. eauto.
Qed.

(** ** What the schema says of the fields the functions read *)

Lemma field_of_section (p : value → bool) (fields_ok : gmap string value → bool)
    (d : gmap string value) (sec k : string) :
  absent_or (mapping fields_ok) (d !! sec) = true →
  (∀ m, fields_ok m = true → absent_or p (m !! k) = true) →
  absent_or p (lookup_path [sec; k] (VDict d)) = true.
Proof.
  simpl. destruct (d !! sec) as [[| | | | |m]|]; simpl; try done.
  intros Hm H. specialize (H m Hm). destruct (m !! k); done.
Qed.

Lemma field_of_subsection (p : value → bool)
    (fields_ok inner_ok : gmap string value → bool)
    (d : gmap string value) (sec sub k : string) :
  absent_or (mapping fields_ok) (d !! sec) = true →
  (∀ m, fields_ok m = true → absent_or (mapping inner_ok) (m !! sub) = true) →
  (∀ m, inner_ok m = true → absent_or p (m !! k) = true) →
  absent_or p (lookup_path [sec; sub; k] (VDict d)) = true.
Proof.
  simpl. destruct (d !! sec) as [[| | | | |m]|]; simpl; try done.
  intros Hm Hsub H. specialize (Hsub m Hm).
  destruct (m !! sub) as [[| | | | |m']|]; simpl in *; try done.
  specialize (H m' Hsub). destruct (m' !! k); done.
Qed.

Ltac schema_field :=
  let m := fresh "m" in
  let Hm := fresh "Hm" in
  intros m Hm; cbv beta in Hm; rewrite ?andb_true_iff in Hm;
  destruct_and?; eassumption.

(** On a record that follows the schema the mandatory fields are textual
    and the two amounts are numeric. *)
Lemma well_formed_typed (d : gmap string value) :
  well_formed d = true →
  sources_textual d = true ∧
  absent_or is_num (lookup_path ["assetDetails"; "estimatedDamage"] (VDict d)) = true ∧
  absent_or is_num (lookup_path ["otherMandatoryFields"; "initialEstimate"] (VDict d)) = true.
Proof.
  unfold well_formed. rewrite !andb_true_iff.
  intros ((((Hpol & Hinc) & Hpar) & Hast) & Hoth).
  split; [| split].
  - unfold sources_textual, mandatory_fields, source_value. cbn [forallb].
    rewrite !andb_true_iff. repeat split.
    + eapply field_of_section; [exact Hpol | schema_field].
    + eapply field_of_section; [exact Hpol | schema_field].
    + eapply field_of_section; [exact Hinc | schema_field].
    + eapply field_of_subsection; [exact Hinc | schema_field | schema_field].
    + eapply field_of_section; [exact Hinc | schema_field].
    + eapply field_of_subsection; [exact Hpar | schema_field | schema_field].
    + eapply field_of_section; [exact Hast | schema_field].
    + eapply field_of_section; [exact Hoth | schema_field].
  - eapply field_of_section; [exact Hast | schema_field].
  - eapply field_of_section; [exact Hoth | schema_field].
Qed.

(** ** Records with nothing missing *)

Lemma check_nil (v : result value) (name : string) (missing : list string) :
  check v name missing = Ok [] →
  missing = [] ∧ ∃ x, v = Ok x ∧ truthy x = true.
Proof.
  intros H. apply check_Ok in H as (x & Hx & H).
  destruct (truthy x) eqn:Ht.
  - subst. eauto.
  - destruct missing; discriminate.
Qed.

Lemma attr_get_section_Ok (d : gmap string value) (sec k : string) (dflt x : value) :
  attr_get (dict_get d sec (VDict ∅)) k dflt = Ok x →
  mapping_or_missing (lookup_path [sec] (VDict d)) = true.
Proof.
  unfold dict_get. simpl. destruct (d !! sec) as [[]|]; simpl; congruence.
Qed.

(** A textual field that passed its check holds a non-empty string. *)
Lemma truthy_textual (o : option value) :
  absent_or is_str o = true → truthy (default VNone o) = true →
  ∃ s, o = Some (VStr s).
Proof.
  destruct o as [[]|]; simpl; try discriminate; eauto.
Qed.

(** The text of the record under a key is what [route_claim] lower-cases,
    and nothing else is. *)
Lemma text_in_section (lower : string → string) (d : gmap string value)
    (sec k s : string) :
  field_text d sec k = Some s →
  attr_get (dict_get d sec (VDict ∅)) k (VStr "") ≫= py_lower lower = Ok (lower s).
Proof.
  unfold field_text, dict_get.
  destruct (d !! sec) as [[| | | | | m]|]; simpl; try discriminate.
  - unfold dict_get.
    destruct (m !! k) as [[| | | t | |]|]; simpl; try discriminate;
      intros [= ->]; reflexivity.
  - unfold dict_get. rewrite lookup_empty. intros [= <-]. reflexivity.
Qed.

Lemma section_text (lower : string → string) (d : gmap string value)
    (sec k t : string) :
  attr_get (dict_get d sec (VDict ∅)) k (VStr "") ≫= py_lower lower = Ok t →
  ∃ s, field_text d sec k = Some s ∧ t = lower s.
Proof.
  unfold field_text, dict_get.
  destruct (d !! sec) as [[| | | | | m]|]; simpl; try discriminate.
  - unfold dict_get.
    destruct (m !! k) as [[| | | u | |]|]; simpl; try discriminate;
      intros [= <-]; eauto.
  - unfold dict_get. rewrite lookup_empty. simpl. intros [= <-]. eauto.
Qed.

Lemma description_of_text (lower : string → string) (d : gmap string value)
    (s : string) :
  field_text d "incidentInformation" "description" = Some s →
  description_of lower d = Ok (lower s).
Proof. apply text_in_section. Qed.

Lemma claim_type_of_text (lower : string → string) (d : gmap string value)
    (c : string) :
  field_text d "otherMandatoryFields" "claimType" = Some c →
  claim_type_of lower d = Ok (lower c).
Proof. apply text_in_section. Qed.

Section Complete.

Variable lower : string → string.

(** When [validate_fields] finds nothing missing in a record whose fields
    are textual, the description and the claim type are strings and the
    two amounts can be read: [route_claim] has all it derives. *)
Lemma complete_record_derived (d : gmap string value) :
  sources_textual d = true → validate_fields d = Ok [] →
  ∃ s c amount,
    source_value d "description" = Some (VStr s) ∧
    description_of lower d = Ok (lower s) ∧
    source_value d "claimType" = Some (VStr c) ∧
    claim_type_of lower d = Ok (lower c) ∧
    damage_amount_of d = Ok amount.
Proof.
  intros Htext Hval.
  destruct (validate_fields_Ok_amounts d [] Hval) as (e & i & He & Hi).
  unfold sources_textual in Htext. rewrite forallb_forall in Htext.
  assert (Hd := Htext "description"). assert (Hc := Htext "claimType").
  unfold validate_fields in Hval.
  apply bind_Ok in Hval as (m1 & _ & Hval).
  apply bind_Ok in Hval as (m2 & _ & Hval).
  apply bind_Ok in Hval as (m3 & _ & Hval).
  apply bind_Ok in Hval as (m4 & _ & Hval).
  apply bind_Ok in Hval as (m5 & H5 & Hval).
  apply bind_Ok in Hval as (m6 & H6 & Hval).
  apply bind_Ok in Hval as (m7 & H7 & Hval).
  apply bind_Ok in Hval as (m8 & H8 & Hval).
  injection Hval as ->.
  apply check_nil in H8 as (-> & xc & Hxc & Htc).
  apply check_nil in H7 as (-> & _).
  apply check_nil in H6 as (-> & _).
  apply check_nil in H5 as (_ & xd & Hxd & Htd).
  assert (Hinc := attr_get_section_Ok _ _ _ _ _ Hxd).
  assert (Hoth := attr_get_section_Ok _ _ _ _ _ Hxc).
  rewrite get_in_section in Hxd, Hxc by assumption.
  injection Hxd as <-. injection Hxc as <-.
  apply truthy_textual in Htd as (s & Hs);
    [| apply Hd; simpl; tauto].
  apply truthy_textual in Htc as (c & Hcs);
    [| apply Hc; simpl; tauto].
  change (source_value d "description" = Some (VStr s)) in Hs.
  change (source_value d "claimType" = Some (VStr c)) in Hcs.
  exists s, c, (resolve_damage e i).
  split; [exact Hs |]. split.
  { unfold description_of. rewrite get_in_section by assumption.
    change (lookup_path _ _) with (source_value d "description").
    rewrite Hs. reflexivity. }
  split; [exact Hcs |]. split.
  { unfold claim_type_of. rewrite get_in_section by assumption.
    change (lookup_path _ _) with (source_value d "claimType").
    rewrite Hcs. reflexivity. }
  by apply damage_amount_of_resolved.
Qed.

(** With the derived values at hand and a numeric amount within the range
    of a [float], [route_claim] returns. *)
Lemma route_claim_returns (d : gmap string value) (m : list string)
    (desc ct : string) (q : Q) :
  description_of lower d = Ok desc → claim_type_of lower d = Ok ct →
  damage_amount_of d = Ok (VNum q) → overflows q = false →
  ∃ r, route_claim lower d m = Ok r.
Proof.
  intros Hdesc Hct Hdmg Hfit.
  apply damage_amount_of_Ok in Hdmg as (e & i & He & Hi & Hv).
  unfold route_claim. rewrite Hdesc, Hct, He, Hi. simpl. rewrite <- Hv.
  destruct (scan_fraud desc); [| simpl; eauto].
  destruct m; [| simpl; eauto].
  destruct (contains "injury" ct); [simpl; eauto |].
  destruct (truthy (VNum q)); simpl; [| eauto].
  destruct (Qltb q (inject_Z 25000)); simpl; [rewrite Hfit |]; eauto.
Qed.

End Complete.

(** ** The batch statistics *)

Section BatchInvariant.

Variable lower : string → string.

Lemma init_tally_complete : tally_complete init.
Proof.
  split; [| constructor].
  intros k Hk. simpl in Hk.
  destruct Hk as [<- | [<- | [<- | [<- | []]]]]; vm_compute; eauto.
Qed.

Lemma process_claim_Ok (doc : document) (res : claim_result) :
  process_claim lower doc = Ok res → In (result_recommendedRoute res) route_names.
Proof.
  unfold process_claim. destruct (extracted doc) as [fields | msg]; [| discriminate].
  intros H. apply bind_Ok in H as (missing & _ & H).
  apply bind_Ok in H as (r & Hr & H). injection H as <-. simpl.
  apply route_claim_Ok in Hr as (? & ? & ? & ? & _ & _ & _ & _ & _ & _ & _ & Hin).
  exact Hin.
Qed.

Lemma process_claim_Raise (doc : document) (e : exn) :
  process_claim lower doc = Raise e → e ≠ KeyError.
Proof.
  unfold process_claim. destruct (extracted doc) as [fields | msg];
    [| intros [= <-]; discriminate].
  intros H. apply bind_Raise in H as [H | (missing & _ & H)].
  - apply validate_fields_Raise in H as ->. discriminate.
  - apply bind_Raise in H as [H | (r & _ & H)]; [| discriminate].
    apply route_claim_Raise in H as [-> | [-> | ->]]; discriminate.
Qed.

Lemma routes_incr_present (r : gmap string nat) (key : string) :
  is_Some (r !! key) →
  ∃ r', routes_incr r key = Ok r' ∧ ∀ k, is_Some (r !! k) → is_Some (r' !! k).
Proof.
  intros [n Hn]. unfold routes_incr. rewrite Hn.
  eexists; split; [reflexivity |]. intros k Hk.
  destruct (decide (key = k)) as [<- | Hne].
  - rewrite lookup_insert_eq. eauto.
  - by rewrite lookup_insert_ne.
Qed.

Lemma process_file_tally_complete (b : batch_processor) (doc : document) :
  tally_complete b → tally_complete (process_file lower b doc).
Proof.
  intros [Hkeys Herr]. unfold process_file.
  destruct (process_claim lower doc) as [res | e] eqn:Hpc.
  - apply process_claim_Ok in Hpc.
    unfold save_result. destruct (save_failure doc) as [msg |].
    { split; simpl; [assumption |].
      apply Forall_app; split; [assumption |].
      constructor; [discriminate | constructor]. }
    cbn [routes].
    destruct (routes_incr_present (routes (batch_stats b))
                (result_recommendedRoute res)) as (r' & -> & Hr'); [by apply Hkeys |].
    split; simpl.
    + intros k Hk. apply Hr', Hkeys, Hk.
    + apply Forall_app; split; [assumption |].
      constructor; [discriminate | constructor].
  - apply process_claim_Raise in Hpc.
    split; simpl; [assumption |].
    apply Forall_app; split; [assumption |].
    constructor; [simpl; congruence | constructor].
Qed.

Lemma process_directory_tally_complete (all_files : list document) :
  tally_complete (process_directory lower all_files).
Proof.
  unfold process_directory. generalize init_tally_complete.
  generalize init. induction all_files as [| doc rest IH]; simpl; intros b Hb.
  - exact Hb.
  - apply IH, process_file_tally_complete, Hb.
Qed.

End BatchInvariant.

(** ** The test suite of the repository, replayed *)

Example test_validate_fields_complete :
  validate_fields sample_extracted_data = Ok [].
Proof. vm_compute; reflexivity. Qed.

Example test_validate_fields_missing_policy :
  validate_fields (set_field "policyInformation" "policyNumber" VNone
                     sample_extracted_data) = Ok ["policyNumber"].
Proof. vm_compute; reflexivity. Qed.

Example test_route_fast_track :
  route_claim ascii_lower sample_extracted_data [] =
    Ok {| recommendedRoute := "fast-track";
          reasoning := "Low damage amount ($15,000.00) with all required fields present";
          missingFields := [];
          fraudIndicators := [];
          estimatedDamage := VNum 15000 |}.
Proof. vm_compute; reflexivity. Qed.

Example test_route_manual_review_high_damage :
  recommendedRoute <$> route_claim ascii_lower (with_damage 50000) []
    = Ok "manual-review".
Proof. vm_compute; reflexivity. Qed.

Example test_route_manual_review_missing_fields :
  reasoning <$> route_claim ascii_lower sample_extracted_data
                  ["policyNumber"; "incidentDate"]
    = Ok "Missing mandatory fields: policyNumber, incidentDate".
Proof. vm_compute; reflexivity. Qed.

Example test_route_investigation_fraud :
  fraudIndicators <$>
    route_claim ascii_lower
      (set_field "incidentInformation" "description"
         (VStr "This seems like a staged accident with inconsistent details")
         sample_extracted_data) []
    = Ok ["staged"; "inconsistent"].
Proof. vm_compute; reflexivity. Qed.

(** 24999.99 as Python holds it, the nearest binary64 number. *)
Example nearest_double_fast_tracked :
  route_claim ascii_lower (with_damage (6871944924820931 # 274877906944)) [] =
    Ok {| recommendedRoute := "fast-track";
          reasoning := "Low damage amount ($24,999.99) with all required fields present";
          missingFields := [];
          fraudIndicators := [];
          estimatedDamage := VNum (6871944924820931 # 274877906944) |}.
Proof. vm_compute; reflexivity. Qed.

(** An [int] beyond 2^53 is printed through the nearest double. *)
Example format_money_large_int :
  format_money (inject_Z (-100000000000000001)) = "-100,000,000,000,000,000.00" ∧
  format_money (inject_Z 9007199254740993) = "9,007,199,254,740,992.00" ∧
  format_money (inject_Z 9007199254740995) = "9,007,199,254,740,996.00" ∧
  format_money (inject_Z 123456789012345678) = "123,456,789,012,345,680.00".
Proof. repeat split; vm_compute; reflexivity. Qed.

(** A double is its own nearest double; 24999.99 is not one. *)
Example nearest_double_of_double :
  (nearest_double (6871944924820931 # 274877906944)
     == 6871944924820931 # 274877906944)%Q ∧
  (nearest_double (2499999 # 100) == 6871944924820931 # 274877906944)%Q ∧
  (nearest_double (inject_Z (2 ^ 1024 - 2 ^ 971)) == inject_Z (2 ^ 1024 - 2 ^ 971))%Q ∧
  (nearest_double (1 # 2 ^ 1074) == 1 # 2 ^ 1074)%Q.
Proof. repeat split; vm_compute; reflexivity. Qed.

(** [float] accepts an [int] up to the limit and no further. *)
Example float_limits :
  overflows (inject_Z (double_limit - 1)) = false ∧
  overflows (inject_Z double_limit) = true ∧
  overflows (inject_Z (1 - double_limit)) = false ∧
  overflows (inject_Z (- double_limit)) = true ∧
  py_format_money (VNum huge_negative) = Raise OverflowError.
Proof. repeat split; vm_compute; reflexivity. Qed.

(** A negative amount of eighteen digits is fast-tracked, and quoted as the
    nearest double prints it. *)
Example large_negative_fast_tracked :
  route_claim ascii_lower (with_damage (inject_Z (-100000000000000001))) [] =
    Ok {| recommendedRoute := "fast-track";
          reasoning := "Low damage amount ($-100,000,000,000,000,000.00) with all required fields present";
          missingFields := [];
          fraudIndicators := [];
          estimatedDamage := VNum (inject_Z (-100000000000000001)) |}.
Proof. vm_compute; reflexivity. Qed.

(** A claim type in capitals is lower-cased before "injury" is looked for. *)
Example upper_case_injury_specialist :
  recommendedRoute <$> route_claim ascii_lower bodily_injury_claim []
    = Ok "specialist-queue".
Proof. vm_compute; reflexivity. Qed.

Example test_edge_case_zero_damage :
  recommendedRoute <$> route_claim ascii_lower zero_estimate [] = Ok "fast-track".
Proof. vm_compute; reflexivity. Qed.

Example test_edge_case_no_damage_estimate :
  route_claim ascii_lower no_estimate [] =
    Ok {| recommendedRoute := "manual-review";
          reasoning := "Standard review required - damage exceeds fast-track threshold or estimate unavailable";
          missingFields := [];
          fraudIndicators := [];
          estimatedDamage := VNum 0 |}.
Proof. vm_compute; reflexivity. Qed.

(** * Main results *)

(** ** Totality *)

(** C1.  The two functions are not total over sparse records.  A record
    that follows the schema but has a null description is validated
    (the description is reported missing) and then makes [route_claim] raise
    [AttributeError], whatever the lower-casing; a record with a null
    section makes [validate_fields] itself raise [AttributeError]. *)
Theorem sparse_record_raises :
  well_formed null_description = true ∧
  validate_fields null_description = Ok ["description"] ∧
  (∀ lower, route_claim lower null_description ["description"]
            = Raise AttributeError) ∧
  well_formed null_section = true ∧
  validate_fields null_section = Raise AttributeError.
Proof.
  split; [vm_compute; reflexivity |].
  split; [vm_compute; reflexivity |].
  split; [intros lower; vm_compute; reflexivity |].
  split; vm_compute; reflexivity.
Qed.

(** ** Damage amount *)

(** C2, as stated, fails: with every mandatory field present, no fraud
    keyword, claim type "auto" and a damage amount of exactly 0, the route
    is not fast-track. *)
Lemma zero_damage_not_fast_tracked :
  validate_fields zero_damage = Ok [] ∧
  (∃ desc, description_of ascii_lower zero_damage = Ok desc ∧ scan_fraud desc = []) ∧
  (∃ ct, claim_type_of ascii_lower zero_damage = Ok ct ∧ contains "injury" ct = false) ∧
  damage_amount_of zero_damage = Ok (VNum 0) ∧
  ∃ r, route_claim ascii_lower zero_damage [] = Ok r ∧
       recommendedRoute r ≠ "fast-track".
Proof.
  split; [vm_compute; reflexivity |].
  split; [eexists; split; vm_compute; reflexivity |].
  split; [eexists; split; vm_compute; reflexivity |].
  split; [vm_compute; reflexivity |].
  eexists; split; [vm_compute; reflexivity |]. simpl. discriminate.
Qed.

(** C2, amended.  With no missing field, no fraud keyword in the
    description and no "injury" in the claim type, a damage amount of
    exactly 0 is routed to manual-review, as an estimate that is not
    available. *)
Theorem zero_damage_standard_review
    (lower : string → string) (d : gmap string value) (desc ct : string) (q : Q) :
  description_of lower d = Ok desc → scan_fraud desc = [] →
  claim_type_of lower d = Ok ct → contains "injury" ct = false →
  damage_amount_of d = Ok (VNum q) → (q == 0)%Q →
  route_claim lower d [] =
    Ok {| recommendedRoute := "manual-review";
          reasoning := "Standard review required - damage exceeds fast-track threshold or estimate unavailable";
          missingFields := [];
          fraudIndicators := [];
          estimatedDamage := VNum q |}.
Proof.
  intros Hdesc Hs Hct Hinj Hdmg Hq.
  apply damage_amount_of_Ok in Hdmg as (e & i & He & Hi & Hv).
  apply (route_standard lower d desc ct e i); auto.
Qed.

(** The theorem at [zero_damage]. *)
Lemma zero_damage_standard_review_witness :
  route_claim ascii_lower zero_damage [] =
    Ok {| recommendedRoute := "manual-review";
          reasoning := "Standard review required - damage exceeds fast-track threshold or estimate unavailable";
          missingFields := [];
          fraudIndicators := [];
          estimatedDamage := VNum 0 |}.
Proof.
  apply (zero_damage_standard_review ascii_lower zero_damage
           "rear-end collision at intersection" "auto" 0);
    vm_compute; reflexivity.
Defined.

(** C3, as stated, fails: an estimated damage that is present and equal to
    0 is not kept; the amount falls back to the initial estimate. *)
Lemma zero_estimate_falls_back :
  lookup_path ["assetDetails"; "estimatedDamage"] (VDict zero_estimate)
    = Some (VNum 0) ∧
  damage_amount_of zero_estimate = Ok (VNum 15000) ∧
  ∃ r, route_claim ascii_lower zero_estimate [] = Ok r ∧
       estimatedDamage r = VNum 15000 ∧ estimatedDamage r ≠ VNum 0.
Proof.
  split; [vm_compute; reflexivity |].
  split; [vm_compute; reflexivity |].
  eexists; split; [vm_compute; reflexivity |]. simpl.
  split; [reflexivity | discriminate].
Qed.

Lemma resolve_damage_settled (e i : option value) :
  absent_or is_num e = true → absent_or is_num i = true →
  resolve_damage (default VNone e) (default VNone i) = settled_damage e i.
Proof.
  unfold resolve_damage, settled_damage, py_or.
  destruct e as [[]|], i as [[]|]; simpl; try discriminate; intros _ _;
    repeat (match goal with
            | |- context [(Qnum ?q =? 0)%Z] => destruct (Qnum q =? 0)%Z eqn:?
            end; simpl);
    try reflexivity; try congruence.
Qed.

(** C3, amended.  On a record that follows the schema and whose two
    sections holding the amounts are mappings (or not there), the damage
    amount is the estimated damage when that is present, non-null and
    non-zero; otherwise the initial estimate when that is present, non-null
    and non-zero; otherwise 0.  It is the amount every returned decision
    carries. *)
Theorem damage_amount_settled (d : gmap string value) :
  well_formed d = true →
  mapping_or_missing (lookup_path ["assetDetails"] (VDict d)) = true →
  mapping_or_missing (lookup_path ["otherMandatoryFields"] (VDict d)) = true →
  let amount :=
    settled_damage (lookup_path ["assetDetails"; "estimatedDamage"] (VDict d))
                   (lookup_path ["otherMandatoryFields"; "initialEstimate"] (VDict d)) in
  damage_amount_of d = Ok amount ∧
  ∀ lower m r, route_claim lower d m = Ok r → estimatedDamage r = amount.
Proof.
  intros Hwf Hast Hoth amount.
  destruct (well_formed_typed d Hwf) as (_ & He & Hi).
  assert (Hd : damage_amount_of d = Ok amount).
  { unfold damage_amount_of, estimated_damage_of, initial_estimate_of.
    rewrite (get_in_section d "assetDetails") by assumption.
    rewrite (get_in_section d "otherMandatoryFields") by assumption.
    simpl mbind. f_equal. by apply resolve_damage_settled. }
  split; [exact Hd |].
  intros lower m r Hr.
  apply route_claim_Ok in Hr as (? & ? & e & i & _ & _ & Hre & Hri & _ & _ & -> & _).
  unfold damage_amount_of in Hd. rewrite Hre, Hri in Hd. simpl in Hd.
  congruence.
Qed.

(** The theorem at [zero_estimate]: the initial estimate of 15000 is the
    amount. *)
Lemma damage_amount_settled_witness :
  damage_amount_of zero_estimate = Ok (VNum 15000) ∧
  ∀ lower m r, route_claim lower zero_estimate m = Ok r →
               estimatedDamage r = VNum 15000.
Proof.
  apply (damage_amount_settled zero_estimate); vm_compute; reflexivity.
Defined.

(** ** Missing fields *)

(** C4, as stated, fails: a policy number made of white space only counts
    as missing in the specification's words, and [validate_fields] does not
    report it. *)
Lemma blank_field_not_reported :
  List.filter (spec_missing blank_policy_number) mandatory_fields = ["policyNumber"] ∧
  validate_fields blank_policy_number = Ok [].
Proof. split; vm_compute; reflexivity. Qed.

Lemma falsy_source_textual (d : gmap string value) (f : string) :
  absent_or is_str (source_value d f) = true →
  falsy_source d f = source_missing d f.
Proof.
  unfold falsy_source, source_missing.
  destruct (source_value d f) as [[]|]; simpl; try discriminate; intros _;
    try reflexivity.
  apply negb_involutive.
Qed.

(** C4, amended.  On a record that follows the schema and whose sections
    are mappings (or not there), [validate_fields] returns exactly the
    tokens of the vocabulary whose value is absent, null or the empty
    string, in the fixed check order; a string of white space counts as
    present. *)
Theorem validate_fields_reports_empty (d : gmap string value) :
  well_formed d = true → mappings_present d = true →
  validate_fields d = Ok (List.filter (source_missing d) mandatory_fields) ∧
  List.filter (source_missing d) mandatory_fields `sublist_of` mandatory_fields.
Proof.
  intros Hwf Hmap. destruct (well_formed_typed d Hwf) as (Htext & _).
  split; [| apply filter_sublist].
  rewrite validate_fields_falsy by assumption. f_equal.
  apply List.filter_ext_in. intros f Hf.
  apply falsy_source_textual.
  unfold sources_textual in Htext. rewrite forallb_forall in Htext.
  by apply Htext.
Qed.

(** The theorem at [fraud_without_claim_type], whose claim type is null. *)
Lemma validate_fields_reports_empty_witness :
  validate_fields fraud_without_claim_type
    = Ok (List.filter (source_missing fraud_without_claim_type) mandatory_fields) ∧
  List.filter (source_missing fraud_without_claim_type) mandatory_fields
    `sublist_of` mandatory_fields.
Proof.
  apply (validate_fields_reports_empty fraud_without_claim_type);
    vm_compute; reflexivity.
Defined.

(** ** The order of the branches *)

(** C5.  The fraud branch does not win on every record: the claim type is
    lower-cased before the description is scanned, so a description that
    holds "staged" and "inconsistent" together with a null claim type ends
    in [AttributeError] and not in an investigation. *)
Theorem fraud_with_null_claim_type_raises :
  (∃ desc, description_of ascii_lower fraud_without_claim_type = Ok desc ∧
           scan_fraud desc = ["staged"; "inconsistent"]) ∧
  validate_fields fraud_without_claim_type = Ok ["claimType"] ∧
  ∀ lower, route_claim lower fraud_without_claim_type ["claimType"]
           = Raise AttributeError.
Proof.
  split; [eexists; split; vm_compute; reflexivity |].
  split; [vm_compute; reflexivity |].
  intros lower.
  assert (Hct : claim_type_of lower fraud_without_claim_type = Raise AttributeError)
    by (vm_compute; reflexivity).
  assert (Hdesc : description_of lower fraud_without_claim_type
                  = Ok (lower "This seems like a staged accident with inconsistent details"))
    by (vm_compute; reflexivity).
  unfold route_claim. rewrite Hdesc, Hct. reflexivity.
Qed.

(** C6.  On a record whose description holds no fraud keyword once
    lower-cased and whose claim type holds no "injury" once lower-cased,
    with no missing field, the threshold is a strict less-than: 24999.99 is
    fast-tracked and exactly 25000 goes to manual review; more generally a
    non-zero amount below 25000 that a float can hold is fast-tracked and
    every amount from 25000 on is not. *)
Theorem damage_threshold_strict
    (lower : string → string) (d : gmap string value) (s c : string) (q : Q) :
  field_text d "incidentInformation" "description" = Some s →
  scan_fraud (lower s) = [] →
  field_text d "otherMandatoryFields" "claimType" = Some c →
  contains "injury" (lower c) = false →
  damage_amount_of d = Ok (VNum q) →
  let routed route := ∃ r, route_claim lower d [] = Ok r ∧ recommendedRoute r = route in
  ((q == 2499999 # 100)%Q → routed "fast-track") ∧
  ((q == 25000)%Q → routed "manual-review") ∧
  (¬ (q == 0)%Q → (inject_Z (- double_limit) < q)%Q → (q < 25000)%Q →
   routed "fast-track") ∧
  ((25000 <= q)%Q → routed "manual-review").
Proof.
  intros Hdesc Hs Hct Hinj Hdmg routed.
  apply (description_of_text lower) in Hdesc.
  apply (claim_type_of_text lower) in Hct.
  apply damage_amount_of_Ok in Hdmg as (e & i & He & Hi & Hv). symmetry in Hv.
  assert (Hlow : ¬ (q == 0)%Q → (inject_Z (- double_limit) < q)%Q → (q < 25000)%Q →
                 routed "fast-track").
  { intros Hnz Hfit Hlt. eexists; split;
      [apply (route_low lower d _ _ e i Hdesc Hct He Hi q); auto using overflows_low
      | reflexivity]. }
  assert (Hhigh : (25000 <= q)%Q → routed "manual-review").
  { intros Hge. eexists; split;
      [apply (route_standard lower d _ _ e i Hdesc Hct He Hi q); auto
      | reflexivity]. }
  repeat split; auto.
  - intros Hq. apply Hlow; rewrite Hq; [discriminate | reflexivity | reflexivity].
  - intros Hq. apply Hhigh. rewrite Hq. apply Qle_refl.
Qed.

(** The theorem at the fixture with a damage of 24999.99 and of 25000; the
    fixture's description starts with a capital letter. *)
Lemma damage_threshold_strict_witness :
  (∃ r, route_claim ascii_lower (with_damage (2499999 # 100)) [] = Ok r ∧
        recommendedRoute r = "fast-track") ∧
  (∃ r, route_claim ascii_lower (with_damage 25000) [] = Ok r ∧
        recommendedRoute r = "manual-review").
Proof.
  split.
  - refine (proj1 (damage_threshold_strict ascii_lower (with_damage (2499999 # 100))
                     "Rear-end collision at intersection" "auto" (2499999 # 100)
                     _ _ _ _ _) _);
      vm_compute; reflexivity.
  - refine (proj1 (proj2 (damage_threshold_strict ascii_lower (with_damage 25000)
                            "Rear-end collision at intersection" "auto" 25000
                            _ _ _ _ _)) _);
      vm_compute; reflexivity.
Defined.

(** C7.  On a record whose description holds no fraud keyword once
    lower-cased, with no missing field, a claim type that holds "injury"
    once lower-cased (in whatever case the record spells it) is routed to
    the specialist queue with the fixed explanation, whatever the damage
    amount is: the injury branch comes before the damage threshold.  The
    record's own missing-field list being empty is enough for the damage
    amount to be there. *)
Theorem injury_before_threshold
    (lower : string → string) (d : gmap string value) (s c : string) :
  field_text d "incidentInformation" "description" = Some s →
  scan_fraud (lower s) = [] →
  field_text d "otherMandatoryFields" "claimType" = Some c →
  contains "injury" (lower c) = true →
  let specialist amount :=
    route_claim lower d [] =
      Ok {| recommendedRoute := "specialist-queue";
            reasoning := "Claim involves injury - requires specialist review";
            missingFields := [];
            fraudIndicators := [];
            estimatedDamage := amount |} in
  (∀ amount, damage_amount_of d = Ok amount → specialist amount) ∧
  (validate_fields d = Ok [] →
   ∃ amount, damage_amount_of d = Ok amount ∧ specialist amount).
Proof.
  intros Hdesc Hs Hct Hinj specialist.
  apply (description_of_text lower) in Hdesc.
  apply (claim_type_of_text lower) in Hct.
  assert (Hany : ∀ amount, damage_amount_of d = Ok amount → specialist amount).
  { intros amount Hdmg.
    apply damage_amount_of_Ok in Hdmg as (e & i & He & Hi & ->).
    by apply (route_injury lower d (lower s) (lower c) e i). }
  split; [exact Hany |].
  intros Hval. apply validate_fields_Ok_amounts in Hval as (e & i & He & Hi).
  exists (resolve_damage e i).
  assert (Hdmg : damage_amount_of d = Ok (resolve_damage e i))
    by (by apply damage_amount_of_resolved).
  split; [exact Hdmg | by apply Hany].
Qed.

(** The theorem at [bodily_injury_claim], whose claim type spells the word
    in capitals and whose damage of 22000 is below the threshold. *)
Lemma injury_before_threshold_witness :
  validate_fields bodily_injury_claim = Ok [] ∧
  damage_amount_of bodily_injury_claim = Ok (VNum 22000) ∧
  route_claim ascii_lower bodily_injury_claim [] =
    Ok {| recommendedRoute := "specialist-queue";
          reasoning := "Claim involves injury - requires specialist review";
          missingFields := [];
          fraudIndicators := [];
          estimatedDamage := VNum 22000 |}.
Proof.
  split; [vm_compute; reflexivity |].
  split; [vm_compute; reflexivity |].
  refine (proj1 (injury_before_threshold ascii_lower bodily_injury_claim
                   "Rear-end collision at intersection" "Bodily INJURY" _ _ _ _)
                (VNum 22000) _);
    vm_compute; reflexivity.
Defined.

(** C10, as stated, fails: an amount below 25000 whose magnitude no float
    can hold passes the comparison and makes the formatting of the reasoning
    raise [OverflowError]; the claim is not fast-tracked. *)
Lemma huge_negative_amount_raises :
  validate_fields (with_damage huge_negative) = Ok [] ∧
  (∃ s, field_text (with_damage huge_negative) "incidentInformation" "description"
          = Some s ∧
        scan_fraud (ascii_lower s) = []) ∧
  (∃ c, field_text (with_damage huge_negative) "otherMandatoryFields" "claimType"
          = Some c ∧
        contains "injury" (ascii_lower c) = false) ∧
  damage_amount_of (with_damage huge_negative) = Ok (VNum huge_negative) ∧
  ¬ (huge_negative == 0)%Q ∧ (huge_negative < 25000)%Q ∧
  route_claim ascii_lower (with_damage huge_negative) [] = Raise OverflowError.
Proof.
  split; [vm_compute; reflexivity |].
  split; [eexists; split; vm_compute; reflexivity |].
  split; [eexists; split; vm_compute; reflexivity |].
  split; [vm_compute; reflexivity |].
  split; [vm_compute; discriminate |].
  split; vm_compute; reflexivity.
Qed.

(** C10, amended.  On a record whose description holds no fraud keyword
    once lower-cased and whose claim type holds no "injury" once
    lower-cased, with no missing field, every non-zero amount strictly below
    25000 that a float can hold (one above -(2^1024 - 2^970)) is
    fast-tracked, a negative one included: the amount is checked against no
    lower bound.  The reasoning quotes the amount as the nearest float
    prints it. *)
Theorem low_amount_fast_tracked
    (lower : string → string) (d : gmap string value) (s c : string) (q : Q) :
  field_text d "incidentInformation" "description" = Some s →
  scan_fraud (lower s) = [] →
  field_text d "otherMandatoryFields" "claimType" = Some c →
  contains "injury" (lower c) = false →
  damage_amount_of d = Ok (VNum q) → ¬ (q == 0)%Q → (q < 25000)%Q →
  (inject_Z (- double_limit) < q)%Q →
  route_claim lower d [] =
    Ok {| recommendedRoute := "fast-track";
          reasoning := "Low damage amount ($" ++ format_money q
                         ++ ") with all required fields present";
          missingFields := [];
          fraudIndicators := [];
          estimatedDamage := VNum q |}.
Proof.
  intros Hdesc Hs Hct Hinj Hdmg Hnz Hlt Hfit.
  apply (description_of_text lower) in Hdesc.
  apply (claim_type_of_text lower) in Hct.
  apply damage_amount_of_Ok in Hdmg as (e & i & He & Hi & Hv).
  apply (route_low lower d (lower s) (lower c) e i); auto using overflows_low.
Qed.

(** The theorem at a damage of -3. *)
Lemma low_amount_fast_tracked_witness :
  route_claim ascii_lower (with_damage (-3)) [] =
    Ok {| recommendedRoute := "fast-track";
          reasoning := "Low damage amount ($-3.00) with all required fields present";
          missingFields := [];
          fraudIndicators := [];
          estimatedDamage := VNum (-3) |}.
Proof.
  apply (low_amount_fast_tracked ascii_lower (with_damage (-3))
           "Rear-end collision at intersection" "auto" (-3));
    try (vm_compute; reflexivity).
  - vm_compute. discriminate.
Defined.

(** ** The returned decision *)



(** C9.  The route of a returned decision is one of the four route names;
    the tally starts with exactly these four keys at zero; and at any point
    of a batch run the counter of that route is there to be incremented, so
    that no file is ever recorded as failed with a [KeyError]. *)
Theorem route_always_tallied
    (lower : string → string) (all_files : list document)
    (d : gmap string value) (m : list string) (r : decision) :
  route_claim lower d m = Ok r →
  recommendedRoute r ∈ route_names ∧
  Forall (λ name, init_routes !! name = Some 0) route_names ∧
  dom init_routes = list_to_set route_names ∧
  (∃ routes', routes_incr (routes (batch_stats (process_directory lower all_files)))
                (recommendedRoute r) = Ok routes') ∧
  Forall (λ en, error en ≠ Some KeyError) (results (process_directory lower all_files)).
Proof.
  intros Hr.
  apply route_claim_Ok in Hr as (? & ? & ? & ? & _ & _ & _ & _ & _ & _ & _ & Hin).
  destruct (process_directory_tally_complete lower all_files) as [Hkeys Herr].
  split; [by apply list_elem_of_In |].
  split; [repeat constructor |].
  split.
  { unfold init_routes, route_names. rewrite !dom_insert_L, dom_empty_L.
    simpl. set_solver. }
  split; [| exact Herr].
  destruct (routes_incr_present _ _ (Hkeys _ Hin)) as (r' & Hr' & _). eauto.
Qed.

(** The theorem at [sample_batch] and the decision for the fixture. *)
Lemma route_always_tallied_witness :
  "fast-track" ∈ route_names ∧
  Forall (λ name, init_routes !! name = Some 0) route_names ∧
  dom init_routes = list_to_set route_names ∧
  (∃ routes', routes_incr (routes (batch_stats (process_directory ascii_lower sample_batch)))
                "fast-track" = Ok routes') ∧
  Forall (λ en, error en ≠ Some KeyError)
    (results (process_directory ascii_lower sample_batch)).
Proof.
  apply (route_always_tallied ascii_lower sample_batch sample_extracted_data []
           {| recommendedRoute := "fast-track";
              reasoning := "Low damage amount ($15,000.00) with all required fields present";
              missingFields := [];
              fraudIndicators := [];
              estimatedDamage := VNum 15000 |}).
  vm_compute; reflexivity.
Defined.

(** * Further properties *)

(** ** Strings *)

Lemma append_cons (c : ascii) (t rest : string) :
  String c t ++ rest = String c (t ++ rest).
Proof. reflexivity. Qed.

Lemma append_nil (rest : string) : EmptyString ++ rest = rest.
Proof. reflexivity. Qed.

Lemma prefix_nil (s : string) : String.prefix EmptyString s = true.
Proof. destruct s; reflexivity. Qed.

Lemma prefix_head (x c : ascii) (t s : string) :
  String.prefix (String x t) (String c s) = Ascii.eqb c x && String.prefix t s.
Proof.
  cbn [String.prefix]. destruct (ascii_dec x c) as [-> | Hne].
  - by rewrite Ascii.eqb_refl.
  - assert (Ascii.eqb c x = false) as -> by (apply Ascii.eqb_neq; congruence).
    reflexivity.
Qed.

Lemma prefix_cons (t : string) (c : ascii) (s : string) :
  String.prefix t (String c s) = true →
  t = EmptyString ∨ ∃ t', t = String c t' ∧ String.prefix t' s = true.
Proof.
  destruct t as [| c' t']; [auto |]. simpl.
  destruct (ascii_dec c' c) as [-> |]; [eauto | discriminate].
Qed.

Lemma prefix_app (t s : string) :
  String.prefix t s = true ↔ ∃ rest, s = t ++ rest.
Proof.
  revert s. induction t as [| c t IH]; intros [| c' s]; simpl.
  - split; eauto.
  - split; eauto.
  - split; [discriminate | intros (? & [=])].
  - destruct (ascii_dec c c') as [-> | Hne].
    + rewrite IH. split; intros (rest & H); exists rest;
        rewrite append_cons in *; congruence.
    + split; [discriminate |].
      intros (rest & H). rewrite append_cons in H. congruence.
Qed.

Lemma contains_app_l (t a b : string) :
  contains t a = true → contains t (a ++ b) = true.
Proof.
  induction a as [| c a IH].
  - simpl. rewrite orb_false_r. intros H.
    destruct t; [| discriminate]. rewrite append_nil. destruct b; reflexivity.
  - rewrite append_cons. cbn [contains]. intros H.
    apply orb_true_iff in H as [H | H].
    + apply prefix_app in H as (rest & H).
      assert (Hp : String.prefix t (String c (a ++ b)) = true).
      { apply prefix_app. exists (rest ++ b).
        rewrite <- append_cons, H. clear.
        induction t; rewrite ?append_cons, ?append_nil; congruence. }
      rewrite Hp. reflexivity.
    + rewrite (IH H). apply orb_true_r.
Qed.

Lemma contains_app_r (t a b : string) :
  contains t b = true → contains t (a ++ b) = true.
Proof.
  intros H. induction a as [| c a IH]; [by rewrite append_nil |].
  rewrite append_cons. cbn [contains]. rewrite IH. apply orb_true_r.
Qed.

Lemma contains_prefix (t s : string) :
  String.prefix t s = true → contains t s = true.
Proof. intros H. destruct s; simpl in *; rewrite H; reflexivity. Qed.

(** A text that holds a longer needle holds every prefix of the needle. *)
Lemma contains_shorter (t u s : string) :
  contains (t ++ u) s = true → contains t s = true.
Proof.
  assert (Hp : ∀ s, String.prefix (t ++ u) s = true → String.prefix t s = true).
  { intros s' H. apply prefix_app in H as (rest & ->). apply prefix_app.
    exists (u ++ rest). clear.
    induction t; rewrite ?append_cons, ?append_nil; congruence. }
  induction s as [| c s IH]; cbn [contains].
  - rewrite !orb_false_r. apply Hp.
  - intros H. apply orb_true_iff in H as [H | H].
    + apply Hp in H. rewrite H. reflexivity.
    + rewrite (IH H). apply orb_true_r.
Qed.

(** ** The substitution *)

Section Substitution.

Variable is_space : ascii → bool.

Lemma length_skip_spaces (s : string) :
  (String.length (skip_spaces is_space s) ≤ String.length s)%nat.
Proof.
  induction s as [| c s IH]; simpl; [lia |].
  destruct (is_space c); simpl; lia.
Qed.

Lemma length_drop_chars (n : nat) (s : string) :
  (String.length (drop_chars n s) ≤ String.length s - n)%nat.
Proof.
  revert s. induction n as [| n IH]; intros [| c s]; simpl; try lia.
  apply IH.
Qed.

Variable fence : string.
Hypothesis fence_nonempty : fence ≠ EmptyString.

Lemma re_sub_fuel_enough (n m : nat) (s : string) :
  (String.length s ≤ n)%nat → (String.length s ≤ m)%nat →
  re_sub_fuel is_space n fence s = re_sub_fuel is_space m fence s.
Proof.
  revert m s. induction n as [| n IH]; intros m s Hn Hm.
  - destruct s; [| simpl in Hn; lia]. destruct m; reflexivity.
  - destruct m as [| m]; [destruct s; [reflexivity | simpl in Hm; lia] |].
    destruct s as [| c s]; [reflexivity |]. simpl in Hn, Hm.
    cbn [re_sub_fuel]. destruct (String.prefix fence (String c s)).
    + assert (Hlen : (String.length (skip_spaces is_space
                        (drop_chars (String.length fence) (String c s)))
                      ≤ String.length s)%nat).
      { etrans; [apply length_skip_spaces |].
        etrans; [apply length_drop_chars |].
        destruct fence; [contradiction | simpl; lia]. }
      apply IH; lia.
    + f_equal. apply IH; lia.
Qed.

Lemma re_sub_nil : re_sub is_space fence EmptyString = EmptyString.
Proof. reflexivity. Qed.

Lemma re_sub_match (s : string) :
  s ≠ EmptyString → String.prefix fence s = true →
  re_sub is_space fence s =
    re_sub is_space fence (skip_spaces is_space (drop_chars (String.length fence) s)).
Proof.
  intros Hs Hp. destruct s as [| c s]; [contradiction |].
  unfold re_sub at 1. cbn [String.length re_sub_fuel]. rewrite Hp.
  apply re_sub_fuel_enough; [| lia].
  etrans; [apply length_skip_spaces |].
  etrans; [apply length_drop_chars |].
  destruct fence; [contradiction | simpl; lia].
Qed.

Lemma re_sub_keep (c : ascii) (s : string) :
  String.prefix fence (String c s) = false →
  re_sub is_space fence (String c s) = String c (re_sub is_space fence s).
Proof.
  intros Hp. unfold re_sub at 1. cbn [String.length re_sub_fuel]. rewrite Hp.
  reflexivity.
Qed.

Lemma drop_chars_app (t rest : string) :
  drop_chars (String.length t) (t ++ rest) = rest.
Proof. induction t as [| c t IH]; [done |]. by rewrite append_cons. Qed.

(** At a fence, the fence and the white space behind it go. *)
Lemma re_sub_fence_head (rest : string) :
  re_sub is_space fence (fence ++ rest)
    = re_sub is_space fence (skip_spaces is_space rest).
Proof.
  rewrite re_sub_match.
  - by rewrite drop_chars_app.
  - destruct fence; [contradiction | by rewrite append_cons].
  - apply prefix_app. by exists rest.
Qed.

(** A text without the fence is left as it is. *)
Lemma re_sub_absent (s : string) :
  contains fence s = false → re_sub is_space fence s = s.
Proof.
  induction s as [| c s IH]; [reflexivity |]. simpl.
  intros H. apply orb_false_iff in H as [Hp Hc].
  rewrite re_sub_keep by exact Hp. by rewrite IH.
Qed.

End Substitution.

(** ** What the substitution leaves of the fences *)

Section Fences.

Variable is_space : ascii → bool.

Lemma triple_nonempty : "```" ≠ EmptyString.
Proof. discriminate. Qed.

Lemma strip_keep (c : ascii) (s : string) :
  String.prefix "```" (String c s) = false →
  re_sub is_space "```" (String c s) = String c (re_sub is_space "```" s).
Proof. apply re_sub_keep. Qed.

Lemma strip_starts_tick (s : string) :
  String.prefix "`" (re_sub is_space "```" s) = true → String.prefix "`" s = true.
Proof.
  intros H. apply prefix_app in H as (r & H). apply prefix_app.
  destruct s as [| c s]; [discriminate |].
  destruct (String.prefix "```" (String c s)) eqn:Hp.
  - apply prefix_app in Hp as (r' & Hp). exists ("``" ++ r'). by rewrite Hp.
  - rewrite strip_keep in H by exact Hp.
    rewrite append_cons in H. injection H as -> _. eexists. reflexivity.
Qed.

Lemma strip_starts_two_ticks (s : string) :
  String.prefix "``" (re_sub is_space "```" s) = true → String.prefix "``" s = true.
Proof.
  intros H. destruct s as [| c s]; [discriminate |].
  destruct (String.prefix "```" (String c s)) eqn:Hp.
  - apply prefix_app in Hp as (r' & Hp). apply prefix_app.
    exists ("`" ++ r'). by rewrite Hp.
  - rewrite strip_keep in H by exact Hp.
    apply prefix_app in H as (r & H). rewrite !append_cons in H.
    injection H as -> H.
    assert (Hs : String.prefix "`" s = true).
    { apply strip_starts_tick. apply prefix_app. exists r.
      by rewrite append_cons. }
    apply prefix_app in Hs as (r' & ->). apply prefix_app. by exists r'.
Qed.

(** After [re.sub(r'```\s*', '', s)] no three back quotes stand in a row. *)
Lemma strip_no_fence (s : string) : contains "```" (re_sub is_space "```" s) = false.
Proof.
  remember (String.length s) as n eqn:Hn. revert s Hn.
  induction n as [n IH] using lt_wf_ind. intros s ->.
  destruct s as [| c s]; [reflexivity |].
  destruct (String.prefix "```" (String c s)) eqn:Hp.
  - rewrite re_sub_match by (discriminate || exact Hp).
    eapply IH; [| reflexivity].
    eapply Nat.le_lt_trans; [apply length_skip_spaces |].
    eapply Nat.le_lt_trans; [apply length_drop_chars |]. simpl. lia.
  - rewrite strip_keep by exact Hp. cbn [contains].
    rewrite (IH (String.length s)) by (simpl; lia || reflexivity).
    rewrite orb_false_r.
    destruct (String.prefix "```" (String c (re_sub is_space "```" s))) eqn:E; [| reflexivity].
    apply prefix_app in E as (r & E). rewrite !append_cons in E.
    injection E as -> E.
    assert (Hs : String.prefix "``" s = true).
    { apply strip_starts_two_ticks. apply prefix_app. exists r.
      by rewrite !append_cons. }
    apply prefix_app in Hs as (r' & ->).
    assert (String.prefix "```" (String "`" ("``" ++ r')) = true)
      by (apply prefix_app; by exists r').
    congruence.
Qed.

(** A fence that begins with a back quote cannot start inside a text that
    has no back quote: the scan copies such a text. *)
Lemma re_sub_skip (fence' a b : string) :
  contains "`" a = false →
  re_sub is_space (String "`" fence') (a ++ b) =
    a ++ re_sub is_space (String "`" fence') b.
Proof.
  induction a as [| c a IH]; [by rewrite !append_nil |].
  cbn [contains]. intros H. apply orb_false_iff in H as [Hc Ha].
  rewrite !append_cons. rewrite re_sub_keep; [by rewrite IH |].
  rewrite prefix_head, prefix_nil, andb_true_r in Hc.
  by rewrite prefix_head, Hc.
Qed.

End Fences.

(** ** The search for the braces *)

Lemma prefix_char (x c : ascii) (s : string) :
  String.prefix (String x EmptyString) (String c s) = Ascii.eqb c x.
Proof. by rewrite prefix_head, prefix_nil, andb_true_r. Qed.

Lemma from_first_open_None (s : string) :
  from_first_open s = None ↔ contains "{" s = false.
Proof.
  induction s as [| c s IH]; [done |].
  cbn [from_first_open contains]. rewrite prefix_char.
  destruct (Ascii.eqb c "{"); simpl; [split; discriminate | exact IH].
Qed.

Lemma from_first_open_Some (s m : string) :
  from_first_open s = Some m →
  ∃ pre rest, s = pre ++ m ∧ m = String "{" rest ∧ contains "{" pre = false.
Proof.
  induction s as [| c s IH]; [discriminate |].
  cbn [from_first_open]. destruct (Ascii.eqb c "{") eqn:Hc.
  - intros [= <-]. apply Ascii.eqb_eq in Hc as ->.
    exists EmptyString, s. by rewrite append_nil.
  - intros H. destruct (IH H) as (pre & rest & -> & -> & Hpre).
    exists (String c pre), rest. rewrite append_cons.
    repeat split. cbn [contains]. rewrite Hpre, orb_false_r.
    rewrite prefix_char. exact Hc.
Qed.

Lemma from_first_open_app (pre rest : string) :
  contains "{" pre = false →
  from_first_open (pre ++ String "{" rest) = Some (String "{" rest).
Proof.
  induction pre as [| c pre IH]; [by rewrite append_nil |].
  cbn [contains]. intros H. apply orb_false_iff in H as [Hc Hpre].
  rewrite append_cons. cbn [from_first_open].
  rewrite prefix_char in Hc. rewrite Hc. by apply IH.
Qed.

Lemma upto_last_close_None (s : string) :
  upto_last_close s = None ↔ contains "}" s = false.
Proof.
  induction s as [| c s IH]; [done |].
  cbn [upto_last_close contains]. rewrite prefix_char.
  destruct (upto_last_close s) as [m |].
  - split; [discriminate |]. intros H. apply orb_false_iff in H as [_ H].
    apply IH in H. discriminate.
  - destruct IH as [IH _]. rewrite (IH eq_refl), orb_false_r.
    destruct (Ascii.eqb c "}"); split; done.
Qed.

Lemma upto_last_close_app (x post : string) :
  contains "}" post = false →
  upto_last_close (x ++ "}" ++ post) = Some (x ++ "}").
Proof.
  intros Hpost. apply upto_last_close_None in Hpost.
  induction x as [| c x IH].
  - rewrite !append_nil, append_cons, append_nil.
    cbn [upto_last_close]. by rewrite Hpost.
  - rewrite (append_cons c x). cbn [upto_last_close]. by rewrite IH.
Qed.

Lemma upto_last_close_Some (s r : string) :
  upto_last_close s = Some r →
  ∃ x post, r = x ++ "}" ∧ s = r ++ post ∧ contains "}" post = false.
Proof.
  revert r. induction s as [| c s IH]; [discriminate |].
  intros r. cbn [upto_last_close].
  destruct (upto_last_close s) as [m |] eqn:Hm.
  - intros [= <-]. destruct (IH m eq_refl) as (x & post & -> & -> & Hpost).
    exists (String c x), post. by rewrite !append_cons.
  - destruct (Ascii.eqb c "}") eqn:Hc; [| discriminate].
    intros [= <-]. apply Ascii.eqb_eq in Hc as ->.
    exists EmptyString, s. rewrite append_nil, append_cons, append_nil.
    repeat split. by apply upto_last_close_None.
Qed.

Lemma append_assoc (a b c : string) : (a ++ b) ++ c = a ++ (b ++ c).
Proof.
  induction a as [| x a IH]; [by rewrite !append_nil |].
  by rewrite !append_cons, IH.
Qed.

Lemma append_empty_r (a : string) : a ++ EmptyString = a.
Proof. induction a as [| x a IH]; [done |]. by rewrite append_cons, IH. Qed.

(** What the search returns is a span of the text that starts with an
    opening brace and ends with a closing one. *)
Lemma re_search_braces_Some (text m : string) :
  re_search_braces text = Some m →
  ∃ pre inner post,
    text = pre ++ m ++ post ∧ m = "{" ++ inner ++ "}" ∧
    contains "{" pre = false ∧ contains "}" post = false.
Proof.
  unfold re_search_braces. intros H.
  destruct (from_first_open text) as [t |] eqn:Ht; [| discriminate].
  simpl in H. apply from_first_open_Some in Ht as (pre & rest & -> & -> & Hpre).
  apply upto_last_close_Some in H as (x & post & -> & Hm & Hpost).
  destruct x as [| c x].
  { rewrite append_nil in Hm. rewrite append_cons in Hm. discriminate. }
  rewrite !append_cons in Hm. injection Hm as <- Hm.
  exists pre, x, post. rewrite Hm, !append_cons, append_nil.
  repeat split; assumption.
Qed.

Lemma re_search_braces_span (pre inner post : string) :
  contains "{" pre = false → contains "}" post = false →
  re_search_braces (pre ++ ("{" ++ inner ++ "}") ++ post) = Some ("{" ++ inner ++ "}").
Proof.
  intros Hpre Hpost. unfold re_search_braces.
  rewrite !append_cons, !append_nil, from_first_open_app by exact Hpre.
  simpl mbind.
  change (String "{" ((inner ++ "}") ++ post))
    with (String "{" (inner ++ "}") ++ post).
  rewrite <- (append_cons "{" inner "}"), append_assoc.
  by rewrite upto_last_close_app.
Qed.

Lemma from_first_open_suffix (a rest : string) :
  ∃ a', from_first_open (a ++ String "{" rest) = Some (a' ++ String "{" rest).
Proof.
  induction a as [| c a IH].
  - exists EmptyString. by rewrite !append_nil.
  - rewrite append_cons. cbn [from_first_open].
    destruct (Ascii.eqb c "{"); [| exact IH].
    exists (String c a). by rewrite append_cons.
Qed.

(** The search fails only on a text with no opening brace that has a
    closing brace somewhere behind it. *)
Lemma re_search_braces_None (text : string) :
  re_search_braces text = None →
  ∀ a b c, text ≠ a ++ "{" ++ b ++ "}" ++ c.
Proof.
  intros H a b c ->. unfold re_search_braces in H.
  rewrite (append_cons "{" EmptyString), append_nil in H.
  destruct (from_first_open_suffix a (b ++ "}" ++ c)) as (a' & Ha).
  rewrite Ha in H. simpl in H. apply upto_last_close_None in H.
  rewrite contains_app_r in H; [discriminate |].
  rewrite <- (append_nil (b ++ "}" ++ c)), <- append_cons.
  apply contains_app_r, contains_app_r, contains_prefix.
  apply prefix_app. by exists c.
Qed.

Lemma contains_char_app (x : ascii) (a b : string) :
  contains (String x EmptyString) (a ++ b) =
    contains (String x EmptyString) a || contains (String x EmptyString) b.
Proof.
  induction a as [| c a IH].
  - rewrite append_nil. reflexivity.
  - rewrite append_cons. cbn [contains]. rewrite !prefix_char, IH.
    by rewrite orb_assoc.
Qed.

(** ** [_extract_json] *)

Section ExtractJsonProperties.

Variable is_space : ascii → bool.

Lemma no_fence_no_json_fence (s : string) :
  contains "```" s = false → contains "```json" s = false.
Proof.
  intros H. destruct (contains "```json" s) eqn:E; [| reflexivity].
  apply (contains_shorter "```" "json") in E. congruence.
Qed.

(** A span of a text without fences has no fence either. *)
Lemma span_no_fence (cleaned m : string) :
  contains "```" cleaned = false → re_search_braces cleaned = Some m →
  contains "```" m = false.
Proof.
  intros Hclean Hm.
  apply re_search_braces_Some in Hm as (pre & inner & post & Heq & _).
  destruct (contains "```" m) eqn:E; [| reflexivity].
  rewrite Heq in Hclean.
  rewrite (contains_app_r _ pre) in Hclean; [discriminate |].
  by apply contains_app_l.
Qed.

Lemma extract_json_fence_free (text : string) :
  contains "```" (_extract_json is_space text) = false.
Proof.
  unfold _extract_json. cbv zeta.
  set (cleaned := re_sub is_space "```" (re_sub is_space "```json" text)).
  assert (Hclean : contains "```" cleaned = false) by apply strip_no_fence.
  destruct (re_search_braces cleaned) as [m |] eqn:Hm; [| exact Hclean].
  by apply (span_no_fence cleaned).
Qed.

(** X1.  The text [_extract_json] returns never holds a code fence, and so
    neither of the two substitutions finds anything left to remove in it:
    no three back quotes stand in a row, whatever the answer was. *)
Theorem extract_json_no_fence (text : string) :
  contains "```" (_extract_json is_space text) = false ∧
  re_sub is_space "```" (re_sub is_space "```json" (_extract_json is_space text))
    = _extract_json is_space text.
Proof.
  assert (Hnf := extract_json_fence_free text). split; [exact Hnf |].
  rewrite (re_sub_absent is_space "```json") by
    (by apply no_fence_no_json_fence).
  by apply re_sub_absent.
Qed.

(** X2.  [_extract_json] is idempotent: what it returns, it returns
    unchanged when applied again. *)
Theorem extract_json_idempotent (text : string) :
  _extract_json is_space (_extract_json is_space text)
    = _extract_json is_space text.
Proof.
  assert (Hnf := extract_json_fence_free text).
  set (r := _extract_json is_space text) in *.
  unfold _extract_json at 1. cbv zeta.
  rewrite (re_sub_absent is_space "```json") by
    (discriminate || by apply no_fence_no_json_fence).
  rewrite (re_sub_absent is_space "```") by (discriminate || exact Hnf).
  subst r. unfold _extract_json. cbv zeta.
  set (cleaned := re_sub is_space "```" (re_sub is_space "```json" text)).
  destruct (re_search_braces cleaned) as [m |] eqn:Hm; [| by rewrite Hm].
  apply re_search_braces_Some in Hm as (_ & inner & _ & _ & -> & _).
  rewrite <- (append_empty_r ("{" ++ inner ++ "}")) at 1.
  rewrite <- (append_nil (("{" ++ inner ++ "}") ++ EmptyString)).
  by rewrite re_search_braces_span.
Qed.

(** X3.  The result either starts with an opening brace and ends with a
    closing one, or it is the whole answer without its fences, and then it
    holds no opening brace with a closing brace behind it. *)
Theorem extract_json_shape (text : string) :
  (∃ inner, _extract_json is_space text = "{" ++ inner ++ "}") ∨
  (_extract_json is_space text
     = re_sub is_space "```" (re_sub is_space "```json" text) ∧
   ∀ a b c, _extract_json is_space text ≠ a ++ "{" ++ b ++ "}" ++ c).
Proof.
  unfold _extract_json. cbv zeta.
  set (cleaned := re_sub is_space "```" (re_sub is_space "```json" text)).
  destruct (re_search_braces cleaned) as [m |] eqn:Hm.
  - left. apply re_search_braces_Some in Hm as (_ & inner & _ & _ & -> & _).
    by exists inner.
  - right. split; [reflexivity |]. by apply re_search_braces_None.
Qed.

(** X4.  From an answer without any code fence, [_extract_json] returns
    the span from the first opening brace to the last closing brace, and
    drops the prose around it. *)
Theorem extract_json_plain (pre inner post : string) :
  contains "```" (pre ++ ("{" ++ inner ++ "}") ++ post) = false →
  contains "{" pre = false → contains "}" post = false →
  _extract_json is_space (pre ++ ("{" ++ inner ++ "}") ++ post)
    = "{" ++ inner ++ "}".
Proof.
  intros Hnf Hpre Hpost. unfold _extract_json. cbv zeta.
  rewrite (re_sub_absent is_space "```json") by
    (discriminate || by apply no_fence_no_json_fence).
  rewrite (re_sub_absent is_space "```") by (discriminate || exact Hnf).
  by rewrite re_search_braces_span.
Qed.

End ExtractJsonProperties.

(** The theorem at [wordy_answer], prose around a nested object. *)
Lemma extract_json_plain_witness :
  _extract_json ascii_isspace wordy_answer
    = "{" ++ (dquote ++ "a" ++ dquote ++ ": {}") ++ "}".
Proof.
  apply (extract_json_plain ascii_isspace "Here is the record: "
           (dquote ++ "a" ++ dquote ++ ": {}") " - let me know.");
    vm_compute; reflexivity.
Defined.

(** Runs of back quotes, braces the wrong way round, a fence made by the
    first substitution: the answers below are what Python returns. *)
Example extract_json_edge_cases :
  map (_extract_json ascii_isspace)
    [ "x``````jsonjson{y}"; "``` ``x"; "`` ``` `"; "a}b{c";
      "pre {a} mid {b} post"; "```` ``"; "{"; "``````json```json" ]
  = [ "{y}"; "``x"; "`` `"; "a}b{c"; "{a} mid {b}"; "` ``"; "{"; "" ].
Proof. vm_compute; reflexivity. Qed.

(** ** A fenced answer *)

Section Fenced.

Variable is_space : ascii → bool.

Lemma skip_spaces_app (ws s : string) :
  skip_spaces is_space ws = EmptyString →
  skip_spaces is_space (ws ++ s) = skip_spaces is_space s.
Proof.
  induction ws as [| c ws IH]; [by rewrite append_nil |].
  rewrite append_cons. cbn [skip_spaces].
  destruct (is_space c); [exact IH | discriminate].
Qed.

Lemma spaces_prefix (x : ascii) (t ws : string) :
  skip_spaces is_space ws = EmptyString → is_space x = false →
  String.prefix (String x t) ws = false.
Proof.
  destruct ws as [| c ws]; [reflexivity |]. cbn [skip_spaces].
  destruct (is_space c) eqn:Hc; [| discriminate]. intros _ Hx.
  rewrite prefix_head.
  destruct (Ascii.eqb c x) eqn:E; [| reflexivity].
  apply Ascii.eqb_eq in E. congruence.
Qed.

Lemma spaces_no_char (x : ascii) (ws : string) :
  skip_spaces is_space ws = EmptyString → is_space x = false →
  contains (String x EmptyString) ws = false.
Proof.
  intros Hws Hx. induction ws as [| c ws IH]; [reflexivity |].
  cbn [contains]. rewrite (spaces_prefix x EmptyString (String c ws) Hws Hx).
  cbn [skip_spaces] in Hws. destruct (is_space c); [by apply IH | discriminate].
Qed.

Hypothesis tick_no_space : is_space "`" = false.
Hypothesis open_no_space : is_space "{" = false.
Hypothesis close_no_space : is_space "}" = false.
Hypothesis j_no_space : is_space "j" = false.

(** Behind the closing fence only white space follows: the first
    substitution passes over it. *)
Lemma closing_fence_kept (ws : string) :
  skip_spaces is_space ws = EmptyString →
  re_sub is_space "```json" ("```" ++ ws) = "```" ++ ws.
Proof.
  intros Hws. apply re_sub_absent.
  change ("```" ++ ws) with (String "`" (String "`" (String "`" ws))).
  cbn [contains]. rewrite !prefix_head.
  rewrite (spaces_prefix "j" "son" ws Hws j_no_space).
  rewrite (spaces_prefix "`" "json" ws Hws tick_no_space).
  rewrite (spaces_prefix "`" "`json" ws Hws tick_no_space).
  rewrite !andb_false_r. simpl orb.
  destruct (contains "```json" ws) eqn:E; [| reflexivity].
  apply (contains_shorter "`" "``json") in E.
  by rewrite spaces_no_char in E.
Qed.

Lemma closing_fence_dropped (ws : string) :
  skip_spaces is_space ws = EmptyString →
  re_sub is_space "```" ("```" ++ ws) = EmptyString.
Proof.
  intros Hws. rewrite re_sub_fence_head by discriminate. by rewrite Hws.
Qed.

(** X5.  An answer wrapped in a json code fence: when the object has no
    back quote in it, [_extract_json] returns exactly the object, whatever
    white space stands after the opening fence, before the closing fence
    and behind it. *)
Theorem extract_json_fenced (ws1 inner ws2 ws3 : string) :
  skip_spaces is_space ws1 = EmptyString →
  skip_spaces is_space ws2 = EmptyString →
  skip_spaces is_space ws3 = EmptyString →
  contains "`" inner = false →
  _extract_json is_space
    ("```json" ++ ws1 ++ ("{" ++ inner ++ "}") ++ ws2 ++ "```" ++ ws3)
    = "{" ++ inner ++ "}".
Proof.
  intros Hws1 Hws2 Hws3 Hinner.
  set (body := "{" ++ inner ++ "}").
  assert (Hbody : contains "`" (body ++ ws2) = false).
  { unfold body. rewrite (append_cons "{" EmptyString), append_nil.
    rewrite append_cons. cbn [contains]. rewrite prefix_char.
    rewrite !contains_char_app, Hinner.
    by rewrite (spaces_no_char "`" ws2 Hws2 tick_no_space). }
  unfold _extract_json. cbv zeta.
  rewrite re_sub_fence_head by discriminate.
  rewrite skip_spaces_app by exact Hws1.
  assert (Hskip : skip_spaces is_space (body ++ ws2 ++ "```" ++ ws3)
                  = body ++ ws2 ++ "```" ++ ws3).
  { unfold body. rewrite (append_cons "{" EmptyString), append_nil.
    rewrite append_cons. cbn [skip_spaces]. by rewrite open_no_space. }
  rewrite Hskip, <- (append_assoc body ws2).
  rewrite (re_sub_skip is_space "``json") by exact Hbody.
  rewrite closing_fence_kept by exact Hws3.
  rewrite (re_sub_skip is_space "``") by exact Hbody.
  rewrite closing_fence_dropped by exact Hws3.
  rewrite append_empty_r.
  rewrite <- (append_nil (body ++ ws2)).
  unfold body. rewrite re_search_braces_span; [reflexivity | reflexivity |].
  by apply spaces_no_char.
Qed.

End Fenced.

(** The theorem at [markdown_json], the fenced answer of the test suite. *)
Lemma extract_json_fenced_witness :
  _extract_json ascii_isspace markdown_json = plain_json.
Proof.
  apply (extract_json_fenced ascii_isspace eq_refl eq_refl eq_refl eq_refl
           newline
           (dquote ++ "test" ++ dquote ++ ": " ++ dquote ++ "value" ++ dquote)
           newline EmptyString);
    vm_compute; reflexivity.
Defined.

(** ** When [validate_fields] and [route_claim] return *)

Lemma get_in_section_raises (d : gmap string value) (sec k : string) (dflt : value) :
  mapping_or_missing (lookup_path [sec] (VDict d)) = false →
  attr_get (dict_get d sec (VDict ∅)) k dflt = Raise AttributeError.
Proof.
  unfold dict_get. simpl. destruct (d !! sec) as [[]|]; simpl; congruence.
Qed.

Lemma get_in_subsection_raises (d : gmap string value) (sec sub k : string) :
  mapping_or_missing (lookup_path [sec] (VDict d)) = true →
  mapping_or_missing (lookup_path [sec; sub] (VDict d)) = false →
  attr_get (dict_get d sec (VDict ∅)) sub (VDict ∅)
    ≫= (λ inner, attr_get inner k VNone) = Raise AttributeError.
Proof.
  unfold dict_get. simpl. destruct (d !! sec) as [[| | | | |m]|]; simpl; try done.
  unfold dict_get. destruct (m !! sub) as [[]|]; simpl; congruence.
Qed.

Lemma check_raises (name : string) (missing : list string) (e : exn) :
  check (Raise e) name missing = Raise e.
Proof. reflexivity. Qed.

Lemma check_returns (x : value) (name : string) (missing : list string) :
  ∃ missing', check (Ok x) name missing = Ok missing'.
Proof. unfold check. simpl. eauto. Qed.

Lemma validate_fields_raises (d : gmap string value) :
  mappings_present d = false → validate_fields d = Raise AttributeError.
Proof.
  intros Hmap.
  unfold mappings_present, parent_paths in Hmap. cbn [forallb] in Hmap.
  unfold validate_fields.
  destruct (mapping_or_missing (lookup_path ["policyInformation"] (VDict d))) eqn:Hpol;
    [| rewrite !(get_in_section_raises d "policyInformation") by assumption; reflexivity].
  destruct (check_returns
              (default VNone (lookup_path ["policyInformation"; "policyNumber"] (VDict d)))
              "policyNumber" []) as (m1 & H1).
  rewrite (get_in_section d "policyInformation" "policyNumber") by exact Hpol.
  rewrite H1. cbn [mbind result_bind].
  destruct (check_returns
              (default VNone (lookup_path ["policyInformation"; "policyholderName"] (VDict d)))
              "policyholderName" m1) as (m2 & H2).
  rewrite (get_in_section d "policyInformation" "policyholderName") by exact Hpol.
  rewrite H2. cbn [mbind result_bind].
  destruct (mapping_or_missing (lookup_path ["incidentInformation"] (VDict d))) eqn:Hinc;
    [| rewrite !(get_in_section_raises d "incidentInformation") by assumption; reflexivity].
  destruct (check_returns
              (default VNone (lookup_path ["incidentInformation"; "date"] (VDict d)))
              "incidentDate" m2) as (m3 & H3).
  rewrite (get_in_section d "incidentInformation" "date") by exact Hinc.
  rewrite H3. cbn [mbind result_bind].
  destruct (mapping_or_missing (lookup_path ["incidentInformation"; "location"] (VDict d)))
    eqn:Hloc; [| rewrite (get_in_subsection_raises d "incidentInformation" "location") by assumption; reflexivity].
  destruct (check_returns
              (default VNone (lookup_path ["incidentInformation"; "location"; "city"] (VDict d)))
              "incidentLocation" m3) as (m4 & H4).
  rewrite (get_in_subsection d "incidentInformation" "location" "city") by assumption.
  rewrite H4. cbn [mbind result_bind].
  destruct (check_returns
              (default VNone (lookup_path ["incidentInformation"; "description"] (VDict d)))
              "description" m4) as (m5 & H5).
  rewrite (get_in_section d "incidentInformation" "description") by exact Hinc.
  rewrite H5. cbn [mbind result_bind].
  destruct (mapping_or_missing (lookup_path ["involvedParties"] (VDict d))) eqn:Hpar;
    [| rewrite !(get_in_section_raises d "involvedParties") by assumption; reflexivity].
  destruct (mapping_or_missing (lookup_path ["involvedParties"; "claimant"] (VDict d)))
    eqn:Hcla; [| rewrite (get_in_subsection_raises d "involvedParties" "claimant") by assumption; reflexivity].
  destruct (check_returns
              (default VNone (lookup_path ["involvedParties"; "claimant"; "name"] (VDict d)))
              "claimantName" m5) as (m6 & H6).
  rewrite (get_in_subsection d "involvedParties" "claimant" "name") by assumption.
  rewrite H6. cbn [mbind result_bind].
  destruct (mapping_or_missing (lookup_path ["assetDetails"] (VDict d))) eqn:Hast;
    [| rewrite !(get_in_section_raises d "assetDetails") by assumption; reflexivity].
  destruct (check_returns
              (default VNone (lookup_path ["assetDetails"; "assetType"] (VDict d)))
              "assetType" m6) as (m7 & H7).
  rewrite (get_in_section d "assetDetails" "assetType") by exact Hast.
  rewrite H7. cbn [mbind result_bind].
  destruct (mapping_or_missing (lookup_path ["otherMandatoryFields"] (VDict d))) eqn:Hoth;
    [| rewrite !(get_in_section_raises d "otherMandatoryFields") by assumption; reflexivity].
  discriminate Hmap.
Qed.

(** X6.  [validate_fields] returns exactly when each section it reaches
    into is a mapping or is not there; it then reports the fields whose
    value is falsy, of whatever type the values are.  In every other case
    it raises [AttributeError]. *)
Theorem validate_fields_returns_iff (d : gmap string value) :
  validate_fields d =
    if mappings_present d
    then Ok (List.filter (falsy_source d) mandatory_fields)
    else Raise AttributeError.
Proof.
  destruct (mappings_present d) eqn:Hmap.
  - by apply validate_fields_falsy.
  - by apply validate_fields_raises.
Qed.

Section RoutingOutcome.

Variable lower : string → string.

(** Lower-casing the text of a section: it works on a string and on the
    default, and on nothing else. *)
Lemma text_of_section (d : gmap string value) (sec k : string) :
  attr_get (dict_get d sec (VDict ∅)) k (VStr "") ≫= py_lower lower =
    if mapping_or_missing (lookup_path [sec] (VDict d)) &&
       str_or_no_key (lookup_path [sec; k] (VDict d))
    then Ok (lower match lookup_path [sec; k] (VDict d) with
                   | Some (VStr text) => text
                   | _ => ""
                   end)
    else Raise AttributeError.
Proof.
  unfold dict_get. simpl. destruct (d !! sec) as [[| | | | |m]|]; simpl; try done.
  all: unfold dict_get; rewrite ?lookup_empty;
    try destruct (m !! k) as [[]|]; reflexivity.
Qed.

Lemma amount_of_section (d : gmap string value) (sec k : string) :
  attr_get (dict_get d sec (VDict ∅)) k VNone =
    if mapping_or_missing (lookup_path [sec] (VDict d))
    then Ok (default VNone (lookup_path [sec; k] (VDict d)))
    else Raise AttributeError.
Proof.
  destruct (mapping_or_missing (lookup_path [sec] (VDict d))) eqn:H.
  - by apply get_in_section.
  - by apply get_in_section_raises.
Qed.

(** Once the four values are derived, only the comparison and the
    formatting of a low amount can fail. *)
Lemma route_claim_derived (d : gmap string value) (m : list string)
    (desc ct : string) (e i : value) :
  description_of lower d = Ok desc → claim_type_of lower d = Ok ct →
  estimated_damage_of d = Ok e → initial_estimate_of d = Ok i →
  (∃ r, route_claim lower d m = Ok r) ∨
  (route_claim lower d m = Raise TypeError ∧
   scan_fraud desc = [] ∧ m = [] ∧ contains "injury" ct = false ∧
   truthy (resolve_damage e i) = true ∧ comparable (resolve_damage e i) = false) ∨
  (route_claim lower d m = Raise OverflowError ∧
   ∃ q, resolve_damage e i = VNum q ∧ overflows q = true ∧
        scan_fraud desc = [] ∧ m = [] ∧ contains "injury" ct = false ∧
        (q < 25000)%Q).
Proof.
  intros Hdesc Hct He Hi. unfold route_claim. rewrite Hdesc, Hct, He, Hi.
  cbn [mbind result_bind]. cbv zeta.
  destruct (scan_fraud desc); [| left; simpl; eauto].
  destruct m; [| left; simpl; eauto].
  destruct (contains "injury" ct); [left; simpl; eauto |].
  destruct (truthy (resolve_damage e i)) eqn:Ht; [| left; simpl; eauto].
  destruct (resolve_damage e i) as [| b | q | | |] eqn:Hv;
    try (right; left; repeat split; reflexivity).
  - left. simpl. destruct (Qltb _ _); simpl; eauto.
  - simpl. destruct (Qltb _ _) eqn:Hlt; simpl; [| left; eauto].
    destruct (overflows q) eqn:Hov; [| left; eauto].
    right; right. split; [reflexivity |].
    apply Qltb_lt in Hlt. exists q. repeat split; assumption.
Qed.

(** X7.  [route_claim] raises [AttributeError] exactly on the records that
    are not routable: one of the three sections it reads is there but is
    not a mapping, or the description or the claim type is there but is
    not a string (null included). *)
Theorem route_claim_attribute_error (d : gmap string value) (m : list string) :
  route_claim lower d m = Raise AttributeError ↔ routable d = false.
Proof.
  pose proof (text_of_section d "incidentInformation" "description") as Hdesc.
  pose proof (text_of_section d "otherMandatoryFields" "claimType") as Hct.
  pose proof (amount_of_section d "assetDetails" "estimatedDamage") as He.
  pose proof (amount_of_section d "otherMandatoryFields" "initialEstimate") as Hi.
  change (attr_get _ _ _ ≫= _) with (description_of lower d) in Hdesc.
  change (attr_get _ _ _ ≫= _) with (claim_type_of lower d) in Hct.
  change (attr_get _ _ _) with (estimated_damage_of d) in He.
  change (attr_get _ _ _) with (initial_estimate_of d) in Hi.
  unfold routable.
  destruct (mapping_or_missing (lookup_path ["incidentInformation"] (VDict d)));
    [| split; [reflexivity |]; intros _; unfold route_claim; by rewrite Hdesc].
  destruct (str_or_no_key (lookup_path ["incidentInformation"; "description"] (VDict d)));
    [| split; [by rewrite !andb_false_r |]; intros _; unfold route_claim; by rewrite Hdesc].
  destruct (mapping_or_missing (lookup_path ["otherMandatoryFields"] (VDict d)));
    [| split; [reflexivity |]; intros _; unfold route_claim; by rewrite Hdesc, Hct].
  destruct (str_or_no_key (lookup_path ["otherMandatoryFields"; "claimType"] (VDict d)));
    [| split; [by rewrite !andb_false_r |]; intros _; unfold route_claim;
       by rewrite Hdesc, Hct].
  destruct (mapping_or_missing (lookup_path ["assetDetails"] (VDict d)));
    [| split; [reflexivity |]; intros _; unfold route_claim;
       by rewrite Hdesc, Hct, He].
  simpl in Hdesc, Hct. split; [| discriminate].
  destruct (route_claim_derived d m _ _ _ _ Hdesc Hct He Hi)
    as [(r & ->) | [(-> & _) | (-> & _)]]; discriminate.
Qed.

End RoutingOutcome.

(** ** The pipeline of [process_claim] *)

Section Pipeline.

Variable lower : string → string.

Lemma settled_damage_comparable (e i : option value) :
  comparable (settled_damage e i) = true.
Proof.
  unfold settled_damage.
  destruct (nonzero_amount e); [reflexivity |].
  destruct (nonzero_amount i); reflexivity.
Qed.

Lemma float_sized_num (o : option value) :
  absent_or float_sized o = true → absent_or is_num o = true.
Proof.
  destruct o as [[]|]; simpl; try discriminate; reflexivity.
Qed.

Lemma nonzero_amount_float_sized (o : option value) (q : Q) :
  absent_or float_sized o = true → nonzero_amount o = Some q →
  overflows q = false.
Proof.
  destruct o as [[| | q' | | |]|]; simpl; try discriminate.
  intros Hfit. destruct (Qnum q' =? 0)%Z; [discriminate |].
  intros [= <-]. by apply negb_true_iff.
Qed.

(** The amount settled on from two amounts a float can hold is one a float
    can hold. *)
Lemma settled_damage_float_sized (e i : option value) (q : Q) :
  absent_or float_sized e = true → absent_or float_sized i = true →
  settled_damage e i = VNum q → overflows q = false.
Proof.
  intros He Hi. unfold settled_damage.
  destruct (nonzero_amount e) as [qe |] eqn:Hqe.
  { intros [= <-]. by apply (nonzero_amount_float_sized e). }
  destruct (nonzero_amount i) as [qi |] eqn:Hqi.
  { intros [= <-]. by apply (nonzero_amount_float_sized i). }
  intros [= <-]. reflexivity.
Qed.

(** X8.  On a record without a null where a mapping or a text belongs, and
    whose two amounts are numbers a float can hold (or are null or not
    there), the whole pipeline returns: the fields are validated, the claim
    is routed to one of the four routes, and the result carries the list
    [validate_fields] found. *)
Theorem process_claim_returns (doc : document) (d : gmap string value) :
  extracted doc = Extracted d →
  mappings_present d = true → routable d = true →
  absent_or float_sized
    (lookup_path ["assetDetails"; "estimatedDamage"] (VDict d)) = true →
  absent_or float_sized
    (lookup_path ["otherMandatoryFields"; "initialEstimate"] (VDict d)) = true →
  ∃ res,
    process_claim lower doc = Ok res ∧
    result_missingFields res = List.filter (falsy_source d) mandatory_fields ∧
    In (result_recommendedRoute res) route_names.
Proof.
  intros Hdoc Hmap Hroutable He Hi.
  unfold process_claim. rewrite Hdoc, validate_fields_falsy by exact Hmap.
  cbn [mbind result_bind].
  set (missing := List.filter (falsy_source d) mandatory_fields).
  unfold routable in Hroutable. rewrite !andb_true_iff in Hroutable.
  destruct Hroutable as ((((Hinc & Hoth) & Hast) & Hdesc) & Hct).
  pose proof (text_of_section lower d "incidentInformation" "description") as Hd.
  pose proof (text_of_section lower d "otherMandatoryFields" "claimType") as Hc.
  change (attr_get _ _ _ ≫= _) with (description_of lower d) in Hd.
  change (attr_get _ _ _ ≫= _) with (claim_type_of lower d) in Hc.
  rewrite Hinc, Hdesc in Hd. rewrite Hoth, Hct in Hc. simpl in Hd, Hc.
  assert (Hest : estimated_damage_of d
                 = Ok (default VNone (lookup_path ["assetDetails"; "estimatedDamage"] (VDict d))))
    by (by apply get_in_section).
  assert (Hini : initial_estimate_of d
                 = Ok (default VNone (lookup_path ["otherMandatoryFields"; "initialEstimate"] (VDict d))))
    by (by apply get_in_section).
  destruct (route_claim_derived lower d missing _ _ _ _ Hd Hc Hest Hini)
    as [(r & Hr) | [(_ & _ & _ & _ & _ & Hcmp) | (_ & q & Hq & Hov & _)]].
  - rewrite Hr. eexists. split; [reflexivity |]. simpl.
    apply route_claim_Ok in Hr as (? & ? & ? & ? & _ & _ & _ & _ & _ & _ & _ & Hin).
    split; [reflexivity | exact Hin].
  - rewrite resolve_damage_settled, settled_damage_comparable in Hcmp
      by (by apply float_sized_num).
    discriminate.
  - rewrite resolve_damage_settled in Hq by (by apply float_sized_num).
    apply settled_damage_float_sized in Hq; [congruence | assumption ..].
Qed.

(** Which branch produced a returned decision. *)
Lemma route_claim_branch (d : gmap string value) (m : list string) (r : decision) :
  route_claim lower d m = Ok r →
  ∃ desc ct,
    description_of lower d = Ok desc ∧ claim_type_of lower d = Ok ct ∧
    fraudIndicators r = scan_fraud desc ∧
    ((scan_fraud desc ≠ [] ∧ recommendedRoute r = "investigation") ∨
     (scan_fraud desc = [] ∧ m ≠ [] ∧ recommendedRoute r = "manual-review" ∧
      reasoning r = "Missing mandatory fields: " ++ join ", " m) ∨
     (scan_fraud desc = [] ∧ m = [] ∧ contains "injury" ct = true ∧
      recommendedRoute r = "specialist-queue") ∨
     (scan_fraud desc = [] ∧ m = [] ∧ contains "injury" ct = false ∧
      truthy (estimatedDamage r) = true ∧
      lt_int (estimatedDamage r) 25000 = Ok true ∧
      recommendedRoute r = "fast-track") ∨
     (scan_fraud desc = [] ∧ m = [] ∧ contains "injury" ct = false ∧
      (truthy (estimatedDamage r) = false ∨
       lt_int (estimatedDamage r) 25000 = Ok false) ∧
      recommendedRoute r = "manual-review")).
Proof.
  unfold route_claim. intros H.
  apply bind_Ok in H as (desc & Hdesc & H).
  apply bind_Ok in H as (ct & Hct & H).
  apply bind_Ok in H as (e & He & H).
  apply bind_Ok in H as (i & Hi & H).
  apply bind_Ok in H as ([rt rs] & Hbranch & H).
  injection H as <-. exists desc, ct. simpl.
  split; [exact Hdesc |]. split; [exact Hct |]. split; [reflexivity |].
  destruct (scan_fraud desc) eqn:Hs;
    [| injection Hbranch as <- _; left; split; [discriminate | reflexivity]].
  right. destruct m as [| f m];
    [| injection Hbranch as <- <-; left; repeat split; discriminate].
  right. destruct (contains "injury" ct);
    [injection Hbranch as <- _; left; repeat split |].
  right. apply bind_Ok in Hbranch as (low & Hlow & Hbranch).
  destruct (truthy (resolve_damage e i)) eqn:Ht.
  - destruct low.
    + apply bind_Ok in Hbranch as (amount & _ & Hbranch).
      injection Hbranch as <- _. left. repeat split; assumption.
    + injection Hbranch as <- _. right. repeat split. by right.
  - injection Hlow as <-. injection Hbranch as <- _.
    right. repeat split. by left.
Qed.

(** X9.  The decision table of a returned decision: the route is
    investigation exactly when a fraud keyword was found; specialist-queue
    exactly when none was found, no field is missing and the claim type
    holds "injury"; fast-track exactly when none was found, no field is
    missing, the claim type holds no "injury", and the amount is non-zero
    and below 25000.  The claim type is the lower-cased text the record
    holds as claimType, and the keywords found are those of the lower-cased
    text it holds as description. *)
Theorem route_decision_table (d : gmap string value) (m : list string) (r : decision) :
  route_claim lower d m = Ok r →
  ∃ ct, claim_type_of lower d = Ok ct ∧
  (recommendedRoute r = "investigation" ↔ fraudIndicators r ≠ []) ∧
  (recommendedRoute r = "specialist-queue" ↔
     fraudIndicators r = [] ∧ m = [] ∧ contains "injury" ct = true) ∧
  (recommendedRoute r = "fast-track" ↔
     fraudIndicators r = [] ∧ m = [] ∧ contains "injury" ct = false ∧
     truthy (estimatedDamage r) = true ∧
     lt_int (estimatedDamage r) 25000 = Ok true) ∧
  ∃ s c,
    field_text d "incidentInformation" "description" = Some s ∧
    field_text d "otherMandatoryFields" "claimType" = Some c ∧
    ct = lower c ∧ fraudIndicators r = scan_fraud (lower s).
Proof.
  intros Hr.
  apply route_claim_branch in Hr as (desc & ct & Hdesc & Hct & Hfraud & Hcase).
  exists ct. split; [exact Hct |].
  assert (Htext : ∃ s c,
            field_text d "incidentInformation" "description" = Some s ∧
            field_text d "otherMandatoryFields" "claimType" = Some c ∧
            ct = lower c ∧ fraudIndicators r = scan_fraud (lower s)).
  { apply section_text in Hdesc as (s & Hs & ->).
    apply section_text in Hct as (c & Hc & ->).
    exists s, c. auto. }
  revert Htext. rewrite Hfraud. clear Hdesc Hct Hfraud. intros Htext.
  enough (Htable :
    (recommendedRoute r = "investigation" ↔ scan_fraud desc ≠ []) ∧
    (recommendedRoute r = "specialist-queue" ↔
       scan_fraud desc = [] ∧ m = [] ∧ contains "injury" ct = true) ∧
    (recommendedRoute r = "fast-track" ↔
       scan_fraud desc = [] ∧ m = [] ∧ contains "injury" ct = false ∧
       truthy (estimatedDamage r) = true ∧
       lt_int (estimatedDamage r) 25000 = Ok true))
    by (destruct Htable as (? & ? & ?); auto).
  clear Htext.
  destruct Hcase as [(Hs & ->) | [(Hs & Hm & -> & _) | [(Hs & Hm & Hinj & ->)
    | [(Hs & Hm & Hinj & Ht & Hlt & ->) | (Hs & Hm & Hinj & Hno & ->)]]]].
  all: repeat split; try discriminate; intros; destruct_and?;
    try congruence; try done.
  destruct Hno; congruence.
Qed.

End Pipeline.

(** The theorem at the sparse record of the test suite, three sections of
    one field each. *)
Lemma process_claim_returns_witness :
  ∃ res,
    process_claim ascii_lower
      {| file_name := "sparse.txt"; extracted := Extracted sparse_record;
         save_failure := None |} = Ok res ∧
    result_missingFields res
      = List.filter (falsy_source sparse_record) mandatory_fields ∧
    In (result_recommendedRoute res) route_names.
Proof.
  apply (process_claim_returns ascii_lower _ sparse_record); vm_compute; reflexivity.
Defined.

(** The theorem at the fixture of the test suite, which is fast-tracked. *)
Lemma route_decision_table_witness :
  ∃ ct, claim_type_of ascii_lower sample_extracted_data = Ok ct ∧
  ("fast-track" = "investigation" ↔ @nil string ≠ []) ∧
  ("fast-track" = "specialist-queue" ↔
     @nil string = [] ∧ @nil string = [] ∧ contains "injury" ct = true) ∧
  ("fast-track" = "fast-track" ↔
     @nil string = [] ∧ @nil string = [] ∧ contains "injury" ct = false ∧
     truthy (VNum 15000) = true ∧ lt_int (VNum 15000) 25000 = Ok true) ∧
  ∃ s c,
    field_text sample_extracted_data "incidentInformation" "description" = Some s ∧
    field_text sample_extracted_data "otherMandatoryFields" "claimType" = Some c ∧
    ct = ascii_lower c ∧ @nil string = scan_fraud (ascii_lower s).
Proof.
  apply (route_decision_table ascii_lower sample_extracted_data []
           {| recommendedRoute := "fast-track";
              reasoning := "Low damage amount ($15,000.00) with all required fields present";
              missingFields := [];
              fraudIndicators := [];
              estimatedDamage := VNum 15000 |}).
  vm_compute; reflexivity.
Defined.

Lemma filter_nil_Forall {A} (f : A → bool) (l : list A) :
  List.filter f l = [] → Forall (λ x, f x = false) l.
Proof.
  induction l as [| x l IH]; simpl; [constructor |].
  destruct (f x) eqn:Hx; [discriminate |]. intros H. constructor; auto.
Qed.

Section PipelineRoutes.

Variable lower : string → string.

Lemma process_claim_inv (doc : document) (res : claim_result) :
  process_claim lower doc = Ok res →
  ∃ d r,
    extracted doc = Extracted d ∧
    validate_fields d = Ok (result_missingFields res) ∧
    route_claim lower d (result_missingFields res) = Ok r ∧
    result_recommendedRoute res = recommendedRoute r ∧
    result_reasoning res = reasoning r ∧
    result_fraudIndicators res = fraudIndicators r ∧
    result_estimatedDamage res = estimatedDamage r.
Proof.
  unfold process_claim. destruct (extracted doc) as [d | msg]; [| discriminate].
  intros H. apply bind_Ok in H as (missing & Hv & H).
  apply bind_Ok in H as (r & Hr & H). injection H as <-. simpl.
  exists d, r. repeat split; assumption.
Qed.

(** X10.  A file that [process_claim] sends to fast-track or to the
    specialist queue has every one of the eight mandatory fields filled
    (truthy) and no fraud keyword in its description. *)
Theorem expedited_only_when_complete (doc : document) (d : gmap string value)
    (res : claim_result) :
  extracted doc = Extracted d → process_claim lower doc = Ok res →
  result_recommendedRoute res = "fast-track" ∨
  result_recommendedRoute res = "specialist-queue" →
  Forall (λ field, truthy (default VNone (source_value d field)) = true)
    mandatory_fields ∧
  result_missingFields res = [] ∧ result_fraudIndicators res = [].
Proof.
  intros Hdoc Hres Hroute.
  apply process_claim_inv in Hres as (d' & r & Hd' & Hval & Hr & Hrt & _ & Hfi & _).
  rewrite Hdoc in Hd'. injection Hd' as <-.
  rewrite Hrt in Hroute. rewrite Hfi.
  apply route_claim_branch in Hr as (desc & ct & _ & _ & Hscan & Hcase).
  assert (Hempty : fraudIndicators r = [] ∧ result_missingFields res = []).
  { rewrite Hscan.
    destruct Hcase as [(_ & Hx) | [(_ & _ & Hx & _) | [(? & ? & _)
      | [(? & ? & _) | (_ & _ & _ & _ & Hx)]]]];
      try (split; assumption);
      rewrite Hx in Hroute; destruct Hroute; discriminate. }
  destruct Hempty as [Hfraud Hmiss]. repeat split; try assumption.
  rewrite Hmiss in Hval.
  destruct (mappings_present d) eqn:Hmap;
    [| rewrite validate_fields_raises in Hval by exact Hmap; discriminate].
  rewrite validate_fields_falsy in Hval by exact Hmap.
  assert (Hnil : List.filter (falsy_source d) mandatory_fields = [])
    by congruence.
  clear Hval. apply filter_nil_Forall in Hnil as Hval.
  eapply Forall_impl; [exact Hval |]. intros f Hf. unfold falsy_source in Hf.
  by apply negb_false_iff.
Qed.

(** X11.  A file with a missing mandatory field is never expedited: it
    goes to investigation when a fraud keyword was found, and otherwise to
    manual-review with a reasoning that lists the missing fields in check
    order. *)
Theorem missing_field_reviewed (doc : document) (res : claim_result) :
  process_claim lower doc = Ok res → result_missingFields res ≠ [] →
  (result_recommendedRoute res = "investigation" ∧
   result_fraudIndicators res ≠ []) ∨
  (result_recommendedRoute res = "manual-review" ∧
   result_fraudIndicators res = [] ∧
   result_reasoning res
     = "Missing mandatory fields: " ++ join ", " (result_missingFields res)).
Proof.
  intros Hres Hmiss.
  apply process_claim_inv in Hres as (d & r & _ & _ & Hr & -> & -> & -> & _).
  apply route_claim_branch in Hr as (desc & ct & _ & _ & -> & Hcase).
  destruct Hcase as [(Hs & ->) | [(Hs & _ & -> & ->) | [(_ & Hm & _)
    | [(_ & Hm & _) | (_ & Hm & _)]]]]; try contradiction.
  - by left.
  - right. by rewrite Hs.
Qed.

End PipelineRoutes.

(** The theorem at the injury scenario, sent to the specialist queue. *)
Lemma expedited_only_when_complete_witness :
  Forall (λ field, truthy (default VNone (source_value injury_claim field)) = true)
    mandatory_fields ∧
  @nil string = [] ∧ @nil string = [].
Proof.
  apply (expedited_only_when_complete ascii_lower
           {| file_name := "fnol_injury_specialist_02.txt";
              extracted := Extracted injury_claim; save_failure := None |}
           injury_claim
           {| documentName := "fnol_injury_specialist_02.txt";
              extractedFields := injury_claim;
              result_missingFields := [];
              result_recommendedRoute := "specialist-queue";
              result_reasoning := "Claim involves injury - requires specialist review";
              result_fraudIndicators := [];
              result_estimatedDamage := VNum 22000 |});
    [reflexivity | vm_compute; reflexivity | by right].
Defined.

(** The theorem at the fixture with a null policy number. *)
Lemma missing_field_reviewed_witness :
  ("manual-review" = "investigation" ∧ @nil string ≠ []) ∨
  ("manual-review" = "manual-review" ∧ @nil string = [] ∧
   "Missing mandatory fields: policyNumber"
     = "Missing mandatory fields: " ++ join ", " ["policyNumber"]).
Proof.
  apply (missing_field_reviewed ascii_lower
           {| file_name := "fnol_missing_fields_04.txt";
              extracted := Extracted (set_field "policyInformation" "policyNumber"
                                        VNone sample_extracted_data);
              save_failure := None |}
           {| documentName := "fnol_missing_fields_04.txt";
              extractedFields := set_field "policyInformation" "policyNumber"
                                   VNone sample_extracted_data;
              result_missingFields := ["policyNumber"];
              result_recommendedRoute := "manual-review";
              result_reasoning := "Missing mandatory fields: policyNumber";
              result_fraudIndicators := [];
              result_estimatedDamage := VNum 15000 |});
    [vm_compute; reflexivity | discriminate].
Defined.

(** ** The statistics of a batch *)

Section BatchStatistics.

Variable lower : string → string.

Lemma process_file_step (b : batch_processor) (doc : document) :
  (∀ k, k ∈ route_names → is_Some (routes (batch_stats b) !! k)) →
  match tallied_route lower doc with
  | Some k =>
      k ∈ route_names ∧
      ∃ n, routes (batch_stats b) !! k = Some n ∧
        process_file lower b doc =
          {| results := results b ++
               [ {| filename := file_name doc; route := Some k;
                    status := "success"; error := None |} ];
             batch_stats :=
               {| total := total (batch_stats b) + 1;
                  successful := successful (batch_stats b) + 1;
                  failed := failed (batch_stats b);
                  routes := <[k := n + 1]> (routes (batch_stats b)) |} |}
  | None =>
      ∃ e, process_file lower b doc
           = record_failure doc e (results b) (batch_stats b)
  end.
Proof.
  intros Hkeys. unfold tallied_route, process_file.
  destruct (process_claim lower doc) as [res | e] eqn:Hpc; [| eauto].
  destruct (save_result doc) as [[] | e]; [| eauto].
  apply process_claim_Ok, list_elem_of_In in Hpc.
  split; [exact Hpc |].
  destruct (Hkeys _ Hpc) as (n & Hn). exists n. split; [exact Hn |].
  cbn [routes]. unfold routes_incr. rewrite Hn. reflexivity.
Qed.

Lemma batch_after_init : batch_after lower [] init.
Proof.
  repeat split. intros k. cbn [init batch_stats routes].
  destruct (decide (k ∈ route_names)) as [Hk | Hk].
  - unfold route_names in Hk. rewrite !elem_of_cons in Hk.
    destruct Hk as [-> | [-> | [-> | [-> | Hk]]]];
      [reflexivity .. | by apply elem_of_nil in Hk].
  - unfold init_routes. unfold route_names in Hk. rewrite !not_elem_of_cons in Hk.
    destruct Hk as (? & ? & ? & ? & _).
    rewrite !lookup_insert_ne by congruence. apply lookup_empty.
Qed.

Lemma batch_after_keys (files : list document) (b : batch_processor) :
  batch_after lower files b →
  ∀ k, k ∈ route_names → is_Some (routes (batch_stats b) !! k).
Proof.
  intros (_ & _ & _ & Hr & _) k Hk. rewrite Hr.
  destruct (decide (k ∈ route_names)); [eauto | contradiction].
Qed.

Lemma tallied_snoc (files : list document) (doc : document) :
  tallied lower (files ++ [doc])%list =
    tallied lower files +
    match tallied_route lower doc with Some _ => 1 | None => 0 end.
Proof.
  unfold tallied. rewrite filter_app, length_app. f_equal.
  rewrite filter_cons. destruct (tallied_route lower doc) eqn:E.
  - rewrite decide_True by eauto. reflexivity.
  - rewrite decide_False by (by intros []). reflexivity.
Qed.

Lemma routed_to_snoc (k : string) (files : list document) (doc : document) :
  routed_to lower k (files ++ [doc])%list =
    routed_to lower k files +
    (if decide (tallied_route lower doc = Some k) then 1 else 0).
Proof.
  unfold routed_to. rewrite filter_app, length_app. f_equal.
  rewrite filter_cons. by destruct (decide _).
Qed.

Lemma batch_after_step (files : list document) (b : batch_processor)
    (doc : document) :
  batch_after lower files b →
  batch_after lower (files ++ [doc])%list (process_file lower b doc).
Proof.
  intros Hb. pose proof (batch_after_keys files b Hb) as Hkeys.
  destruct Hb as (Htot & Hsucc & Hsum & Hr & Hnames & Hroutes).
  pose proof (process_file_step b doc Hkeys) as Hstep.
  unfold batch_after. rewrite tallied_snoc, length_app, !fmap_app.
  destruct (tallied_route lower doc) as [k |] eqn:Hk.
  - destruct Hstep as (Hin & n & Hn & ->).
    cbn [batch_stats results total successful failed routes].
    rewrite !fmap_app, Hnames, Hroutes. simpl length.
    split; [lia |]. split; [lia |]. split; [lia |].
    split; [| split; [reflexivity | simpl; by rewrite Hk]].
    intros k'. rewrite routed_to_snoc, Hk.
    destruct (decide (k = k')) as [<- | Hne].
    + rewrite lookup_insert_eq. rewrite Hr in Hn.
      destruct (decide (k ∈ route_names)); [| contradiction].
      injection Hn as <-. by rewrite decide_True.
    + rewrite lookup_insert_ne by exact Hne. rewrite Hr.
      rewrite (decide_False (P := Some k = Some k')) by congruence.
      by rewrite Nat.add_0_r.
  - destruct Hstep as (e & ->). unfold record_failure.
    cbn [batch_stats results total successful failed routes].
    rewrite !fmap_app, Hnames, Hroutes. simpl length.
    split; [lia |]. split; [lia |]. split; [lia |].
    split; [| split; [reflexivity | simpl; by rewrite Hk]].
    intros k'. rewrite routed_to_snoc, Hk, Hr.
    rewrite (decide_False (P := None = Some k')) by discriminate.
    by rewrite Nat.add_0_r.
Qed.

Lemma batch_after_fold (files seen : list document) (b : batch_processor) :
  batch_after lower seen b →
  batch_after lower (seen ++ files)%list (fold_left (process_file lower) files b).
Proof.
  revert seen b. induction files as [| doc files IH]; intros seen b Hb; simpl.
  - by rewrite app_nil_r.
  - replace (seen ++ doc :: files)%list with ((seen ++ [doc]) ++ files)%list
      by (by rewrite <- app_assoc).
    apply IH. by apply batch_after_step.
Qed.

Lemma process_directory_after (files : list document) :
  batch_after lower files (process_directory lower files).
Proof. apply (batch_after_fold files [] init), batch_after_init. Qed.

End BatchStatistics.

Section BatchResults.

Variable lower : string → string.

(** X12.  After a batch every file is counted once, as successful or as
    failed, and has one entry in the results, in the order of the files:
    the entry carries the file's name and the route it was tallied under,
    or no route when it failed. *)
Theorem batch_counts (files : list document) :
  let b := process_directory lower files in
  total (batch_stats b) = length files ∧
  successful (batch_stats b) + failed (batch_stats b) = length files ∧
  successful (batch_stats b) = tallied lower files ∧
  filename <$> results b = file_name <$> files ∧
  route <$> results b = tallied_route lower <$> files.
Proof.
  destruct (process_directory_after lower files) as (? & ? & ? & _ & ? & ?).
  repeat split; assumption.
Qed.

Lemma tallied_route_names (doc : document) (k : string) :
  tallied_route lower doc = Some k → k ∈ route_names.
Proof.
  unfold tallied_route.
  destruct (process_claim lower doc) as [res |] eqn:Hpc; [| discriminate].
  destruct (save_result doc); [| discriminate]. intros [= <-].
  by apply list_elem_of_In, (process_claim_Ok lower doc).
Qed.

Lemma tallied_sum (files : list document) :
  tallied lower files =
    routed_to lower "fast-track" files + routed_to lower "manual-review" files +
    routed_to lower "investigation" files + routed_to lower "specialist-queue" files.
Proof.
  induction files as [| doc files IH] using rev_ind; [reflexivity |].
  rewrite tallied_snoc, !routed_to_snoc, IH.
  destruct (tallied_route lower doc) as [k |] eqn:Hk.
  - apply tallied_route_names in Hk. unfold route_names in Hk.
    rewrite !elem_of_cons in Hk.
    destruct Hk as [-> | [-> | [-> | [-> | Hk]]]];
      [.. | by apply elem_of_nil in Hk];
      repeat case_decide; try congruence; lia.
  - repeat case_decide; try congruence; lia.
Qed.

(** X13.  After a batch the tally has the four route names as its keys and
    no other, the counter of a route is the number of files tallied under
    it, and the four counters add up to the number of successful files. *)
Theorem batch_tally (files : list document) :
  let st := batch_stats (process_directory lower files) in
  (∀ k, routes st !! k =
          if decide (k ∈ route_names) then Some (routed_to lower k files)
          else None) ∧
  routed_to lower "fast-track" files + routed_to lower "manual-review" files +
  routed_to lower "investigation" files + routed_to lower "specialist-queue" files
    = successful st.
Proof.
  destruct (process_directory_after lower files) as (_ & Hs & _ & Hr & _).
  split; [exact Hr |]. cbv zeta. rewrite Hs. symmetry. apply tallied_sum.
Qed.

(** X14.  A counter that is positive comes with a positive total, and no
    counter exceeds the total: the percentage the summary prints for a
    route with [count > 0] never divides by zero and never exceeds 100. *)
Theorem positive_count_positive_total (files : list document) (k : string) (n : nat) :
  routes (batch_stats (process_directory lower files)) !! k = Some n →
  (n ≤ total (batch_stats (process_directory lower files)))%nat ∧
  (0 < n → 0 < total (batch_stats (process_directory lower files)))%nat.
Proof.
  intros Hn.
  destruct (process_directory_after lower files) as (Htot & _ & _ & Hr & _).
  rewrite Hr in Hn. destruct (decide (k ∈ route_names)); [| discriminate].
  injection Hn as <-. rewrite Htot.
  assert (routed_to lower k files ≤ length files)%nat by apply length_filter.
  lia.
Qed.

Lemma routed_to_Permutation (k : string) (files files' : list document) :
  files ≡ₚ files' → routed_to lower k files = routed_to lower k files'.
Proof. intros H. unfold routed_to. by rewrite H. Qed.

(** X15.  The statistics of a batch do not depend on the order in which
    the files are processed. *)
Theorem batch_stats_order_independent (files files' : list document) :
  files ≡ₚ files' →
  batch_stats (process_directory lower files)
    = batch_stats (process_directory lower files').
Proof.
  intros Hperm.
  destruct (process_directory_after lower files) as (Ht & Hs & Hf & Hr & _).
  destruct (process_directory_after lower files') as (Ht' & Hs' & Hf' & Hr' & _).
  destruct (batch_stats (process_directory lower files)) as [t s f r].
  destruct (batch_stats (process_directory lower files')) as [t' s' f' r'].
  simpl in *.
  assert (Hlen : length files = length files') by (by rewrite Hperm).
  assert (Htal : tallied lower files = tallied lower files')
    by (unfold tallied; by rewrite Hperm).
  f_equal; try lia.
  apply map_eq. intros k. rewrite Hr, Hr'.
  destruct (decide (k ∈ route_names)); [| reflexivity].
  f_equal. by apply routed_to_Permutation.
Qed.

(** X16.  Failures are isolated: without the files that failed, the batch
    ends with the same tally and the same number of successful files, and
    with no failure. *)
Theorem failures_leave_tally (files : list document) :
  let kept := filter (λ doc, is_Some (tallied_route lower doc)) files in
  routes (batch_stats (process_directory lower kept))
    = routes (batch_stats (process_directory lower files)) ∧
  successful (batch_stats (process_directory lower kept))
    = successful (batch_stats (process_directory lower files)) ∧
  failed (batch_stats (process_directory lower kept)) = 0.
Proof.
  intros kept.
  destruct (process_directory_after lower files) as (_ & Hs & _ & Hr & _).
  destruct (process_directory_after lower kept) as (_ & Hs' & Hf' & Hr' & _).
  assert (Hkept : tallied lower kept = length kept).
  { unfold tallied, kept. by rewrite list_filter_filter, (list_filter_iff _ (λ doc, is_Some (tallied_route lower doc)))
      by tauto. }
  assert (Htal : tallied lower kept = tallied lower files)
    by (rewrite Hkept; reflexivity).
  repeat split; [| lia | lia].
  apply map_eq. intros k. rewrite Hr, Hr'.
  destruct (decide (k ∈ route_names)); [| reflexivity].
  f_equal. unfold routed_to, kept. rewrite list_filter_filter.
  f_equal. apply list_filter_iff. intros doc. split; [tauto |].
  intros H. split; [exact H | rewrite H; eauto].
Qed.

End BatchResults.

(** The theorem at [sample_batch], where one file of three is
    fast-tracked. *)
Lemma positive_count_positive_total_witness :
  (1 ≤ total (batch_stats (process_directory ascii_lower sample_batch)))%nat ∧
  (0 < 1 → 0 < total (batch_stats (process_directory ascii_lower sample_batch)))%nat.
Proof.
  apply (positive_count_positive_total ascii_lower sample_batch "fast-track" 1).
  vm_compute; reflexivity.
Defined.

(** The theorem at [sample_batch] and its reversal. *)
Lemma batch_stats_order_independent_witness :
  batch_stats (process_directory ascii_lower sample_batch)
    = batch_stats (process_directory ascii_lower sample_batch_reversed).
Proof.
  apply (batch_stats_order_independent ascii_lower sample_batch sample_batch_reversed).
  apply Permutation_rev.
Defined.

(** ** The scale of the chart *)

Lemma foldr_max_ge (l : list nat) (v : nat) :
  v ∈ l → (v ≤ foldr Nat.max 0 l)%nat.
Proof.
  induction l as [| x l IH]; [by intros ?%elem_of_nil |].
  rewrite elem_of_cons. simpl. intros [-> | H]; [lia |].
  apply IH in H. lia.
Qed.

(** X17.  The scale [max_count] of the chart is at least 1 and at least
    every counter, for any tally, the empty one and the all-zero one
    included: the ratio [count / max_count] a bar is drawn from is always
    defined and never above 1. *)
Theorem max_count_bounds (r : gmap string nat) :
  (1 ≤ max_count r)%nat ∧ ∀ k n, r !! k = Some n → (n ≤ max_count r)%nat.
Proof.
  unfold max_count. cbv zeta.
  destruct (existsb _ _) eqn:Hany.
  - split.
    + apply existsb_exists in Hany as (v & Hv & Hnz).
      apply list_elem_of_In, foldr_max_ge in Hv.
      apply negb_true_iff, Nat.eqb_neq in Hnz. lia.
    + intros k n Hk. apply foldr_max_ge.
      apply list_elem_of_fmap. exists (k, n). split; [reflexivity |].
      by apply elem_of_map_to_list.
  - split; [lia |]. intros k n Hk.
    assert (Hin : In n (map_to_list r).*2).
    { apply list_elem_of_In, list_elem_of_fmap. exists (k, n).
      split; [reflexivity |]. by apply elem_of_map_to_list. }
    destruct (Nat.eqb n 0) eqn:Hn; [apply Nat.eqb_eq in Hn; lia |].
    assert (existsb (λ v, negb (Nat.eqb v 0)) (map_to_list r).*2 = true).
    { apply existsb_exists. exists n. by rewrite Hn. }
    congruence.
Qed.

(** ** The amount that cannot be compared *)

Section Comparison.

Variable lower : string → string.

Lemma lt_int_not_comparable (v : value) (n : Z) :
  comparable v = false → lt_int v n = Raise TypeError.
Proof. destruct v; simpl; congruence. Qed.

(** X18.  [route_claim] raises [TypeError] exactly when the decision comes
    down to the damage threshold (no fraud keyword, no missing field, no
    "injury" in the claim type) and the amount is truthy but neither a
    number nor a boolean, such as a non-empty string.  With a fraud
    keyword, a missing field or an injury claim, such an amount does no
    harm. *)
Theorem route_claim_type_error (d : gmap string value) (m : list string) :
  route_claim lower d m = Raise TypeError ↔
  ∃ desc ct amount,
    description_of lower d = Ok desc ∧ claim_type_of lower d = Ok ct ∧
    damage_amount_of d = Ok amount ∧
    scan_fraud desc = [] ∧ m = [] ∧ contains "injury" ct = false ∧
    truthy amount = true ∧ comparable amount = false.
Proof.
  split.
  - intros H.
    destruct (description_of lower d) as [desc | x] eqn:Hdesc;
      [| unfold route_claim in H; rewrite Hdesc in H;
         apply description_of_Raise in Hdesc; simpl in H; congruence].
    destruct (claim_type_of lower d) as [ct | x] eqn:Hct;
      [| unfold route_claim in H; rewrite Hdesc, Hct in H;
         apply claim_type_of_Raise in Hct; simpl in H; congruence].
    destruct (estimated_damage_of d) as [e | x] eqn:He;
      [| unfold route_claim in H; rewrite Hdesc, Hct, He in H;
         apply attr_get_Raise in He; simpl in H; congruence].
    destruct (initial_estimate_of d) as [i | x] eqn:Hi;
      [| unfold route_claim in H; rewrite Hdesc, Hct, He, Hi in H;
         apply attr_get_Raise in Hi; simpl in H; congruence].
    destruct (route_claim_derived lower d m desc ct e i Hdesc Hct He Hi)
      as [(r & Hr) | [(_ & Hs & Hm & Hinj & Ht & Hcmp) | (Hr & _)]];
      [congruence | | congruence].
    exists desc, ct, (resolve_damage e i). repeat split; try assumption.
    by apply damage_amount_of_resolved.
  - intros (desc & ct & amount & Hdesc & Hct & Hdmg & Hs & -> & Hinj & Ht & Hcmp).
    apply damage_amount_of_Ok in Hdmg as (e & i & He & Hi & ->).
    unfold route_claim. rewrite Hdesc, Hct, He, Hi.
    cbn [mbind result_bind]. cbv zeta. rewrite Hs, Hinj, Ht.
    by rewrite lt_int_not_comparable.
Qed.

End Comparison.

(** ** When the formatting fails *)

Section Formatting.

Variable lower : string → string.


End Formatting.

